(** * A shallow embedding of the URL shortener backend

    The development follows the layout of the backend sources:

    - [Js]                  the fragment of JavaScript values the handlers inspect
                            (truthiness, [typeof], string helpers);
    - [Platform]            the two third-party entry points used by the URL validator
                            ([validator.isURL] and the WHATWG [URL] constructor);
    - [UrlValidator]        [src/utils/urlValidator.ts];
    - [ShortCodeGenerator]  [src/utils/shortCodeGenerator.ts];
    - [Database]            [src/database/database.ts], the [urls] table and its queries;
    - [UrlController]       [src/controllers/urlController.ts], the request handlers;
    - [RateLimiter]         [src/middleware/rateLimiter.ts];
    - [SimplePlatform], [PlainUrls]
                            two executable implementations of [Platform], on
                            which the handlers are run at concrete requests.

    Conventions.  A JavaScript string is a sequence of code units; the model keeps
    the code units below 256 (type [ascii]).  JavaScript numbers that hold integers
    are modelled by [Z], and their arithmetic rounds to 53 significant bits as
    that of a Number does ([Js.to_number]).  The columns of the [urls] table keep the ranges their SQL
    types give them ([INTEGER], [VARCHAR(n)]), a statement that leaves those ranges
    raises an error, and an [await] on a rejected query is a [Throw].  Failures
    of the connection pool itself are outside the model. *)

From Stdlib Require Import ZArith NArith Arith Bool List String Ascii Lia.
From Stdlib Require Import Sorting.Sorted Sorting.Permutation.
Import ListNotations.

Open Scope string_scope.
Open Scope Z_scope.

(* ------------------------------------------------------------------------- *)
(** ** JavaScript values *)

Module Js.

(** The values a JSON request body or an untyped argument can hold. *)
Inductive Value : Type :=
| Undefined
| Null
| Boolean (b : bool)
| Number (n : Z)
| Str (s : string)
| Object.

(** [typeof v === 'string'] *)
Definition is_string (v : Value) : bool :=
  match v with Str _ => true | _ => false end.

(** Truthiness, as tested by [!v] and [if (v)]. *)
Definition truthy (v : Value) : bool :=
  match v with
  | Undefined | Null => false
  | Boolean b => b
  | Number n => negb (n =? 0)
  | Str s => negb (s =? "")%string
  | Object => true
  end.

(** The string held by a value that passed a [typeof v === 'string'] test. *)
Definition as_string (v : Value) : string :=
  match v with Str s => s | _ => "" end.

(** [s.length] *)
Definition length (s : string) : Z := Z.of_nat (String.length s).

(** [s.startsWith(p)] *)
Definition startsWith (s p : string) : bool := String.prefix p s.

Definition in_range (lo hi c : ascii) : bool :=
  ((N_of_ascii lo <=? N_of_ascii c) && (N_of_ascii c <=? N_of_ascii hi))%N.

Definition is_upper (c : ascii) : bool := in_range "A" "Z" c.
Definition is_lower (c : ascii) : bool := in_range "a" "z" c.
Definition is_digit (c : ascii) : bool := in_range "0" "9" c.

(** Code units with a lower-case partner 32 places up: [A-Z], and in the
    Latin-1 block U+00C0..U+00DE without the multiplication sign U+00D7. *)
Definition has_lower (c : ascii) : bool :=
  is_upper c
  || (((192 <=? N_of_ascii c) && (N_of_ascii c <=? 222))%N
      && negb (N_of_ascii c =? 215)%N).

Definition lower_char (c : ascii) : ascii :=
  if has_lower c then ascii_of_N (N_of_ascii c + 32) else c.

(** [s.toLowerCase()], on the code units the model keeps.  (Of the code units
    from 256 on, which the model leaves out, the Kelvin sign U+212A becomes the
    letter [k].) *)
Fixpoint toLowerCase (s : string) : string :=
  match s with
  | EmptyString => EmptyString
  | String c s' => String (lower_char c) (toLowerCase s')
  end.

(** [Number.MAX_SAFE_INTEGER], 2^53 - 1: up to it every integer is a Number. *)
Definition MAX_SAFE_INTEGER : Z := 9007199254740991.

(** The Number that stands for the integer [z]: [z] itself up to 2^53, beyond
    it the nearest integer with 53 significant bits, the even one of two that
    are equally near.  A result from 2^1024 on stands for [Infinity]. *)
Definition to_number (z : Z) : Z :=
  let a := Z.abs z in
  if a <=? MAX_SAFE_INTEGER then z
  else
    let e := Z.log2 a - 52 in
    let q := a / 2 ^ e in
    let r := a mod 2 ^ e in
    let q' := if (2 ^ (e - 1) <? r) || ((r =? 2 ^ (e - 1)) && Z.odd q)
              then q + 1 else q in
    Z.sgn z * (q' * 2 ^ e).

(** [a - b] and [a * b] on Numbers that hold integers. *)
Definition sub (a b : Z) : Z := to_number (a - b).
Definition mul (a b : Z) : Z := to_number (a * b).

(** [xs.includes(x)] on an array of strings. *)
Definition includes (xs : list string) (x : string) : bool :=
  existsb (String.eqb x) xs.

Fixpoint all_chars (p : ascii -> bool) (s : string) : bool :=
  match s with
  | EmptyString => true
  | String c s' => p c && all_chars p s'
  end.

(** [s.replace(/\/$/, '')]: the pattern has no [m] flag, so [$] is the end of
    the input and the only possible match is a final slash. *)
Fixpoint replace_trailing_slash (s : string) : string :=
  match s with
  | EmptyString => EmptyString
  | String c EmptyString => if Ascii.eqb c "/" then EmptyString else s
  | String c s' => String c (replace_trailing_slash s')
  end.

(** No character occurs twice in [l]. *)
Fixpoint distinct_chars (l : list ascii) : bool :=
  match l with
  | [] => true
  | c :: l' => negb (existsb (Ascii.eqb c) l') && distinct_chars l'
  end.

End Js.

(* ------------------------------------------------------------------------- *)
(** ** Third-party entry points of the validator *)

(** The options object passed to [validator.isURL]. *)
Record IsURLOptions : Type := mkIsURLOptions {
  protocols : list string;
  require_protocol : bool
}.

(** The part of a parsed [URL] object the backend reads. *)
Record URL : Type := mkURL {
  hostname : string;
  toString : string
}.

(** [validator.isURL] comes from the [validator] package and [URL] from the
    runtime; neither is part of the backend, so the model is stated over any
    implementation of them.  [URL_new s = None] stands for [new URL(s)]
    throwing its [TypeError]. *)
Class Platform : Type := {
  validator_isURL : string -> IsURLOptions -> bool;
  URL_new : string -> option URL
}.

(** What the [validator] package documents for the two options the backend
    sets: with [require_protocol], an accepted string starts with a protocol
    followed by a colon, and that protocol, in lower case, is one of
    [protocols]. *)
Definition isURL_requires_protocol `{Platform} : Prop :=
  forall (s : string) (options : IsURLOptions),
    validator_isURL s options = true -> require_protocol options = true ->
    exists p rest, s = p ++ ":" ++ rest
                   /\ In (Js.toLowerCase p) (protocols options).

(** What the URL standard lays down for the schemes [http] and [https]: a
    string that starts with one of them, in any case, and a colon is parsed,
    if at all, as a URL of that scheme, and the serialisation of the URL
    starts with the scheme in lower case and [://]. *)
Definition URL_keeps_protocol `{Platform} : Prop :=
  forall (s : string) (u : URL) (p rest : string),
    URL_new s = Some u -> s = p ++ ":" ++ rest ->
    Js.toLowerCase p = "http" \/ Js.toLowerCase p = "https" ->
    exists tail, toString u = Js.toLowerCase p ++ "://" ++ tail.

(* ------------------------------------------------------------------------- *)
(** ** src/utils/urlValidator.ts *)

Module UrlValidator.

Definition isURL_options : IsURLOptions :=
  {| protocols := ["http"; "https"]; require_protocol := true |}.

(** The host names the validator refuses. *)
Definition private_host (hostname : string) : bool :=
  (hostname =? "localhost")%string
  || (hostname =? "127.0.0.1")%string
  || Js.startsWith hostname "192.168."
  || Js.startsWith hostname "10."
  || Js.startsWith hostname "172.".

Definition isValidUrl `{Platform} (url : Js.Value) : bool :=
  if negb (Js.truthy url) || negb (Js.is_string url) then false
  else
    let url := Js.as_string url in
    if negb (validator_isURL url isURL_options) then false
    else
      match URL_new url with
      | Some urlObj =>
          if private_host (hostname urlObj) then false else true
      | None => false
      end.

Definition normalizeUrl `{Platform} (url : string) : string :=
  match URL_new url with
  | Some urlObj => Js.replace_trailing_slash (toString urlObj)
  | None => url
  end.

End UrlValidator.


(* ------------------------------------------------------------------------- *)
(** ** src/utils/shortCodeGenerator.ts *)

Module ShortCodeGenerator.

(** Modelled from the spec: the source of randomness of the [nanoid] package,
    which is a dependency and not part of the backend sources.  The spec asks
    for a random source; it is the stream of random bytes, byte [i] of the
    stream, and reading [n] bytes moves the stream [n] places on. *)
Definition Random : Type := nat -> N.

Definition advance (n : nat) (rnd : Random) : Random := fun i => rnd (n + i)%nat.

(** Modelled from the spec: the alphabet of the [nanoid] package, which is a
    dependency and not part of the backend sources.  The spec gives it as 64
    URL-safe characters: upper-case letters, lower-case letters, digits,
    hyphen and underscore. *)
Definition urlAlphabet : string :=
  "ABCDEFGHIJKLMNOPQRSTUVWXYZabcdefghijklmnopqrstuvwxyz0123456789-_".

(** Modelled from the spec: character [i] of the alphabet of [nanoid]. *)
Definition alphabet_char (i : N) : ascii :=
  match String.get (N.to_nat i) urlAlphabet with
  | Some c => c
  | None => "A"%char
  end.

(** Modelled from the spec: [nanoid(size)], which the spec describes as a random
    string of exactly [size] characters drawn from the URL-safe alphabet.  Each
    character is picked by the low six bits of the next random byte. *)
Fixpoint nanoid_chars (size : nat) (rnd : Random) : string :=
  match size with
  | O => EmptyString
  | S size' =>
      String (alphabet_char (N.land (rnd O) 63)) (nanoid_chars size' (advance 1 rnd))
  end.

(** Modelled from the spec: a call of [nanoid(size)], which gives the string and
    leaves the random source [size] bytes further. *)
Definition nanoid (size : nat) (rnd : Random) : string * Random :=
  (nanoid_chars size rnd, advance size rnd).

Definition DEFAULT_LENGTH : nat := 6.
Definition CUSTOM_CODE_MAX_LENGTH : Z := 20.
Definition ALLOWED_CHARS : string :=
  "0123456789ABCDEFGHIJKLMNOPQRSTUVWXYZabcdefghijklmnopqrstuvwxyz".

(** [generate(length = DEFAULT_LENGTH)]; [None] is a call without argument. *)
Definition generate (length : option nat) (rnd : Random) : string * Random :=
  let length := match length with Some n => n | None => DEFAULT_LENGTH end in
  nanoid length rnd.

(** [/^[a-zA-Z0-9]+$/.test(code)] *)
Definition allowedPattern_test (code : string) : bool :=
  negb (code =? "")%string
  && Js.all_chars (fun c => Js.is_lower c || Js.is_upper c || Js.is_digit c) code.

Definition reservedWords : list string :=
  ["api"; "admin"; "www"; "app"; "dashboard"; "health"; "status"].

Definition isValidCustomCode (code : Js.Value) : bool :=
  if negb (Js.truthy code) || negb (Js.is_string code) then false
  else
    let code := Js.as_string code in
    if (Js.length code <? 3) || (Js.length code >? CUSTOM_CODE_MAX_LENGTH) then false
    else if negb (allowedPattern_test code) then false
    else if Js.includes reservedWords (Js.toLowerCase code) then false
    else true.

(** The character class [[A-Za-z0-9_-]] that the tests of [generate] ask for. *)
Definition url_safe (c : ascii) : bool :=
  Js.is_upper c || Js.is_lower c || Js.is_digit c
  || Ascii.eqb c "-" || Ascii.eqb c "_".

End ShortCodeGenerator.


(* ------------------------------------------------------------------------- *)
(** ** src/types/index.ts *)

Module Types.

(** [interface Url]; every record read back from the table carries its [id]. *)
Record Url : Type := mkUrl {
  id : Z;
  originalUrl : string;
  shortCode : string;
  createdAt : Z;
  clickCount : Z
}.

(** [Omit<Url, 'id' | 'createdAt'>], the argument of [createUrl]. *)
Record NewUrl : Type := mkNewUrl {
  new_originalUrl : string;
  new_shortCode : string;
  new_clickCount : Z
}.

(** The record [u] with [n] as its click count. *)
Definition with_clicks (u : Url) (n : Z) : Url :=
  {| id := id u;
     originalUrl := originalUrl u;
     shortCode := shortCode u;
     createdAt := createdAt u;
     clickCount := n |}.

End Types.

(* ------------------------------------------------------------------------- *)
(** ** src/database/database.ts *)

Module Database.

Import Types.

(** A row of the table created by [initDatabase]:
<<
  id SERIAL PRIMARY KEY,
  original_url VARCHAR(2048) NOT NULL,
  short_code VARCHAR(50) UNIQUE NOT NULL,
  created_at TIMESTAMP WITH TIME ZONE DEFAULT CURRENT_TIMESTAMP,
  click_count INTEGER DEFAULT 0,
  updated_at TIMESTAMP WITH TIME ZONE DEFAULT CURRENT_TIMESTAMP
>>
    Timestamps are points on an integer time line. *)
Record Row : Type := mkRow {
  row_id : Z;
  original_url : string;
  short_code : string;
  created_at : Z;
  click_count : Z;
  updated_at : Z
}.

(** The state of the database: the rows of [urls] and the next value of the
    sequence behind the [SERIAL] column. *)
Record Table : Type := mkTable {
  rows : list Row;
  urls_id_seq : Z
}.

(** The table as [CREATE TABLE IF NOT EXISTS] makes it in a fresh database. *)
Definition initDatabase : Table := {| rows := []; urls_id_seq := 1 |}.

(** The range of the SQL type [INTEGER]. *)
Definition INT4_MAX : Z := 2147483647.
Definition INT4_MIN : Z := -2147483648.
Definition in_int4 (n : Z) : bool := (INT4_MIN <=? n) && (n <=? INT4_MAX).

(** The errors a statement on [urls] can raise. *)
Inductive DbError : Type :=
| unique_violation
| string_data_right_truncation
| numeric_value_out_of_range
| invalid_text_representation
| sequence_generator_limit_exceeded
| invalid_row_count_in_limit_clause
| invalid_row_count_in_result_offset_clause.

(** The outcome of an awaited query: a value, or a rejection that the caller
    sees as an exception. *)
Inductive Result (A : Type) : Type :=
| Return (a : A)
| Throw (e : DbError).
Arguments Return {A} a.
Arguments Throw {A} e.

(** Storing a string in a [VARCHAR(n)] column: a longer string is an error,
    unless all the excess characters are spaces, which are then cut off. *)
Definition varchar (n : nat) (s : string) : option string :=
  if (String.length s <=? n)%nat then Some s
  else if Js.all_chars (Ascii.eqb " ") (substring n (String.length s - n) s)
       then Some (substring 0 n s)
       else None.

(** The mapping from [row] to the returned object, shared by all the methods. *)
Definition rowToUrl (row : Row) : Url :=
  {| id := row_id row;
     originalUrl := original_url row;
     shortCode := short_code row;
     createdAt := created_at row;
     clickCount := click_count row |}.

(** [WHERE short_code = $1] *)
Definition has_code (shortCode : string) (row : Row) : bool :=
  (short_code row =? shortCode)%string.

(** [INSERT INTO urls (original_url, short_code, click_count) VALUES ($1, $2, $3)
    RETURNING ...], run at time [now].  The sequence value is drawn before the
    row is checked, so a rejected insert still uses it up. *)
Definition createUrl (now : Z) (url : NewUrl) (t : Table) : Table * Result Url :=
  let id := urls_id_seq t in
  if id >? INT4_MAX then (t, Throw sequence_generator_limit_exceeded)
  else
    let t1 := {| rows := rows t; urls_id_seq := id + 1 |} in
    match varchar 2048 (new_originalUrl url), varchar 50 (new_shortCode url) with
    | Some original, Some code =>
        if negb (in_int4 (new_clickCount url))
        then (t1, Throw numeric_value_out_of_range)
        else if existsb (fun r => row_id r =? id) (rows t)
                || existsb (has_code code) (rows t)
        then (t1, Throw unique_violation)
        else
          let row := {| row_id := id;
                        original_url := original;
                        short_code := code;
                        created_at := now;
                        click_count := new_clickCount url;
                        updated_at := now |} in
          ({| rows := rows t ++ [row]; urls_id_seq := id + 1 |},
           Return (rowToUrl row))
    | _, _ => (t1, Throw string_data_right_truncation)
    end.

(** [SELECT * FROM urls WHERE short_code = $1] *)
Definition getUrlByShortCode (shortCode : string) (t : Table) : option Url :=
  match filter (has_code shortCode) (rows t) with
  | [] => None
  | row :: _ => Some (rowToUrl row)
  end.

(** [SELECT * FROM urls WHERE id = $1] *)
Definition getUrlById (id : Z) (t : Table) : option Url :=
  match filter (fun r => row_id r =? id) (rows t) with
  | [] => None
  | row :: _ => Some (rowToUrl row)
  end.

(** The order in which one execution of a [SELECT] reads the rows of the
    table.  The database promises no particular one, and two executions of the
    same statement need not agree. *)
Record Scan : Type := mkScan {
  scan_rows : list Row -> list Row;
  scan_perm : forall l, Permutation (scan_rows l) l
}.

(** The range of the SQL type [bigint], the type of [LIMIT] and [OFFSET]. *)
Definition INT8_MAX : Z := 9223372036854775807.
Definition INT8_MIN : Z := -9223372036854775808.

(** Binding the Number [n] to a [bigint] parameter.  The driver sends
    [n.toString()]: from 10^21 on that text has an exponent, which [bigint]
    does not read; below, it is an integer that lies on the same side of the
    bounds of [bigint] as [n] does. *)
Definition bigint_param (n : Z) : option DbError :=
  if (n <=? - 10 ^ 21) || (10 ^ 21 <=? n) then Some invalid_text_representation
  else if (n <? INT8_MIN) || (INT8_MAX <? n) then Some numeric_value_out_of_range
  else None.

(** [ORDER BY created_at DESC]; rows with equal time stamps come in the order
    in which the execution reads them. *)
Fixpoint insert_desc (r : Row) (l : list Row) : list Row :=
  match l with
  | [] => [r]
  | x :: l' =>
      if created_at x >? created_at r then x :: insert_desc r l' else r :: l
  end.

Definition order_by_created_at_desc (l : list Row) : list Row :=
  fold_right insert_desc [] l.

(** Newest first: [a] may stand before [b]. *)
Definition newer_or_same (a b : Row) : Prop := created_at b <= created_at a.

(** [getAllUrls(limit = 100, offset = 0)]: [SELECT COUNT( * )], then
    [SELECT * ... ORDER BY created_at DESC LIMIT $1 OFFSET $2], read in the
    order [scan].  The two parameters are bound as [bigint]; the database
    rejects a value that is none, and then a negative [OFFSET] or [LIMIT].
    The count is parsed by [parseInt]; the [id] column bounds it by 2^31, far
    below [Js.MAX_SAFE_INTEGER]. *)
Definition getAllUrls (scan : Scan) (limit offset : option Z) (t : Table)
  : Result (list Url * Z) :=
  let limit := match limit with Some n => n | None => 100 end in
  let offset := match offset with Some n => n | None => 0 end in
  let total := Z.of_nat (List.length (rows t)) in
  match bigint_param limit, bigint_param offset with
  | Some e, _ => Throw e
  | None, Some e => Throw e
  | None, None =>
      if offset <? 0 then Throw invalid_row_count_in_result_offset_clause
      else if limit <? 0 then Throw invalid_row_count_in_limit_clause
      else
        let result_rows :=
          firstn (Z.to_nat limit)
            (skipn (Z.to_nat offset)
               (order_by_created_at_desc (scan_rows scan (rows t)))) in
        Return (map rowToUrl result_rows, total)
  end.

(** [SET click_count = click_count + 1] on one row. *)
Definition bump (row : Row) : Row :=
  {| row_id := row_id row;
     original_url := original_url row;
     short_code := short_code row;
     created_at := created_at row;
     click_count := click_count row + 1;
     updated_at := updated_at row |}.

(** [UPDATE urls SET click_count = click_count + 1 WHERE short_code = $1
    RETURNING ...].  The sum has to fit the [INTEGER] column; if it does not,
    the statement fails and changes nothing. *)
Definition incrementClickCount (shortCode : string) (t : Table)
  : Table * Result (option Url) :=
  if existsb (fun r => has_code shortCode r && (click_count r + 1 >? INT4_MAX))
       (rows t)
  then (t, Throw numeric_value_out_of_range)
  else
    let t' :=
      {| rows := map (fun r => if has_code shortCode r then bump r else r) (rows t);
         urls_id_seq := urls_id_seq t |} in
    match map bump (filter (has_code shortCode) (rows t)) with
    | [] => (t', Return None)
    | row :: _ => (t', Return (Some (rowToUrl row)))
    end.

(** The rows of the table after that [UPDATE]. *)
Definition bumped (c : string) (l : list Row) : list Row :=
  map (fun r => if has_code c r then bump r else r) l.

(** [DELETE FROM urls WHERE short_code = $1]; the result is [rowCount > 0]. *)
Definition deleteUrl (shortCode : string) (t : Table) : Table * bool :=
  let rowCount := Z.of_nat (List.length (filter (has_code shortCode) (rows t))) in
  ({| rows := filter (fun r => negb (has_code shortCode r)) (rows t);
      urls_id_seq := urls_id_seq t |},
   rowCount >? 0).

(** The [UNIQUE] constraint on [short_code]. *)
Definition unique_short_codes (t : Table) : Prop :=
  NoDup (map short_code (rows t)).

(** The key constraints of the table: [short_code] is unique, [id] is unique,
    and every [id] in use was drawn from the sequence. *)
Definition consistent (t : Table) : Prop :=
  unique_short_codes t
  /\ NoDup (map row_id (rows t))
  /\ Forall (fun r => row_id r < urls_id_seq t) (rows t).

(** What a row of a later table was in the table [t]: a row with the
    same [id] that differs at most by a smaller click count, or nothing, and
    then its [id] is a new one. *)
Definition came_from (t : Table) (r' : Row) : Prop :=
  (exists r, In r (rows t)
             /\ row_id r' = row_id r
             /\ short_code r' = short_code r
             /\ original_url r' = original_url r
             /\ created_at r' = created_at r
             /\ click_count r <= click_count r')
  \/ urls_id_seq t <= row_id r'.

(** The calls a client of the class can make.  [getUrlByShortCode], [getUrlById],
    [getAllUrls], [getUrlsByDateRange], [getTopUrls], [getStats] and
    [healthCheck] only run [SELECT] statements. *)
Inductive Op : Type :=
| OpCreateUrl (now : Z) (url : NewUrl)
| OpIncrementClickCount (shortCode : string)
| OpDeleteUrl (shortCode : string)
| OpSelect.

(** The table after one call. *)
Definition step (op : Op) (t : Table) : Table :=
  match op with
  | OpCreateUrl now url => fst (createUrl now url t)
  | OpIncrementClickCount shortCode => fst (incrementClickCount shortCode t)
  | OpDeleteUrl shortCode => fst (deleteUrl shortCode t)
  | OpSelect => t
  end.

(** The table after a sequence of calls, first call first. *)
Definition run (ops : list Op) (t : Table) : Table :=
  fold_left (fun t op => step op t) ops t.

(** The states the table can be in: those a sequence of calls leads to from
    the freshly created table. *)
Definition reachable (t : Table) : Prop :=
  exists ops, t = run ops initDatabase.





(** A row that fits the column types of the table. *)
Definition row_fits (r : Row) : Prop :=
  1 <= row_id r <= INT4_MAX
  /\ Js.length (original_url r) <= 2048
  /\ Js.length (short_code r) <= 50
  /\ INT4_MIN <= click_count r <= INT4_MAX.

(** The column types as an invariant of the state. *)
Definition fits (t : Table) : Prop :=
  Forall row_fits (rows t) /\ 1 <= urls_id_seq t <= INT4_MAX + 1.


End Database.


(* ------------------------------------------------------------------------- *)
(** ** src/controllers/urlController.ts *)

Module UrlController.

Import Types UrlValidator ShortCodeGenerator Database.

(** The [data] object of a successful [POST /api/shorten]. *)
Record ShortUrlData : Type := mkShortUrlData {
  data_id : Z;
  data_originalUrl : string;
  data_shortCode : string;
  data_shortUrl : string;
  data_createdAt : Z
}.

(** [{ ...url, shortUrl }] *)
Record UrlWithShortUrl : Type := mkUrlWithShortUrl {
  url_record : Url;
  shortUrl : string
}.

(** The two numbers that the template [`Found ${total} URLs (showing page
    ${page})`] prints. *)
Record Found : Type := mkFound {
  found_total : Z;
  showing_page : Z
}.

Record Pagination : Type := mkPagination {
  page : Z;
  limit : Z;
  total : Z;
  totalPages : Z;
  hasNext : bool;
  hasPrev : bool
}.

(** The JSON bodies the handlers send: [Failure] is [{ success: false, error }],
    the others carry [success: true]. *)
Inductive Body : Type :=
| Failure (error : string)
| Created (data : ShortUrlData)
| UrlList (data : list UrlWithShortUrl) (pagination : Pagination) (message : Found)
| UrlStats (data : UrlWithShortUrl)
| Success (message : string).

(** What a handler does with [res]: [res.status(s).json(b)], [res.status(s).send(html)]
    or [res.redirect(s, location)]. *)
Inductive Response : Type :=
| json (status : Z) (body : Body)
| send (status : Z) (html : string)
| redirect (status : Z) (location : string).

Definition status_of (r : Response) : Z :=
  match r with
  | json s _ | send s _ | redirect s _ => s
  end.

(** The parts of the request [createShortUrl] reads: [req.body.url],
    [req.body.customCode], [req.protocol] and [req.get('host')]. *)
Record ShortenRequest : Type := mkShortenRequest {
  body_url : Js.Value;
  body_customCode : Js.Value;
  req_protocol : string;
  req_host : string
}.

Definition baseUrl (protocol host : string) : string := protocol ++ "://" ++ host.

Definition maxAttempts : Z := 10.

(** The [do { ... } while (attempts < maxAttempts)] loop of [createShortUrl],
    entered with the current value of [attempts]; it gives back [shortCode] and
    [attempts] as they are when the loop is left.  [fuel] bounds the number of
    further passes. *)
Fixpoint generateLoop (fuel : nat) (attempts : Z) (rnd : Random) (t : Table)
  : string * Z :=
  let (shortCode, rnd') := generate None rnd in
  match getUrlByShortCode shortCode t with
  | None => (shortCode, attempts)
  | Some _ =>
      let attempts := attempts + 1 in
      if attempts <? maxAttempts then
        match fuel with
        | S fuel' => generateLoop fuel' attempts rnd' t
        | O => (shortCode, attempts)
        end
      else (shortCode, attempts)
  end.

Definition unableToGenerate : Response :=
  json 500 (Failure "Unable to generate unique short code. Please try again").

Definition internalServerError : Response :=
  json 500 (Failure "Internal server error").

Definition invalidCustomCode : Response :=
  json 400 (Failure
    "Invalid custom code. Must be 3-20 alphanumeric characters and not a reserved word").

Definition customCodeExists : Response :=
  json 409 (Failure "Custom code already exists. Please choose a different one").

(** The last part of [createShortUrl]: the record is created with the click
    count 0 and answered with 201; a rejected insert ends in the [catch] block. *)
Definition persist (req : ShortenRequest) (now : Z)
  (normalizedUrl shortCode : string) (t : Table) : Table * Response :=
  match createUrl now {| new_originalUrl := normalizedUrl;
                         new_shortCode := shortCode;
                         new_clickCount := 0 |} t with
  | (t', Return urlRecord) =>
      (t', json 201 (Created
         {| data_id := id urlRecord;
            data_originalUrl := originalUrl urlRecord;
            data_shortCode := Types.shortCode urlRecord;
            data_shortUrl :=
              baseUrl (req_protocol req) (req_host req) ++ "/" ++ shortCode;
            data_createdAt := createdAt urlRecord |}))
  | (t', Throw _) => (t', internalServerError)
  end.

(** [POST /api/shorten], handled at time [now] with the random source [rnd]. *)
Definition createShortUrl `{Platform} (req : ShortenRequest) (now : Z)
  (rnd : Random) (t : Table) : Table * Response :=
  let url := body_url req in
  let customCode := body_customCode req in
  if negb (Js.truthy url) then (t, json 400 (Failure "URL is required"))
  else if negb (isValidUrl url)
  then (t, json 400
             (Failure "Invalid URL format. Please provide a valid HTTP/HTTPS URL"))
  else
    let normalizedUrl := normalizeUrl (Js.as_string url) in
    if Js.truthy customCode then
      if negb (isValidCustomCode customCode) then (t, invalidCustomCode)
      else
        match getUrlByShortCode (Js.as_string customCode) t with
        | Some existingUrl => (t, customCodeExists)
        | None => persist req now normalizedUrl (Js.as_string customCode) t
        end
    else
      let (shortCode, attempts) := generateLoop (Z.to_nat maxAttempts) 0 rnd t in
      if attempts >=? maxAttempts then (t, unableToGenerate)
      else persist req now normalizedUrl shortCode t.

(** The code that the call number [k] of [generate()] gives, counting from 0,
    when the calls start at the random source [rnd]. *)
Definition nth_generated (rnd : Random) (k : nat) : string :=
  fst (generate None (Nat.iter k (fun r => snd (generate None r)) rnd)).

(** The page sent for an unknown short code (markup shortened to its title). *)
Definition notFoundPage : string := "<!DOCTYPE html> 404 - URL Not Found".

Definition shortCodeRequired : Response :=
  json 400 (Failure "Short code is required").

(** [GET /:shortCode], with [shortCode = req.params.shortCode]. *)
Definition redirectToOriginalUrl (shortCode : string) (t : Table)
  : Table * Response :=
  if (shortCode =? "")%string then (t, shortCodeRequired)
  else
    match getUrlByShortCode shortCode t with
    | None => (t, send 404 notFoundPage)
    | Some urlRecord =>
        match incrementClickCount shortCode t with
        | (t', Return _) => (t', redirect 301 (originalUrl urlRecord))
        | (t', Throw _) => (t', internalServerError)
        end
    end.

(** [parseInt(q) || d], with [None] for a [parseInt] that gives [NaN]. *)
Definition or_default (parsed : option Z) (d : Z) : Z :=
  match parsed with
  | Some n => if n =? 0 then d else n
  | None => d
  end.

(** [Math.ceil(a / b)] for integers [a] and [b <> 0]. *)
Definition Math_ceil_div (a b : Z) : Z :=
  if a mod b =? 0 then a / b else a / b + 1.

(** [GET /api/urls]; [page_q] and [limit_q] are the Numbers that [parseInt]
    gives on the two query parameters, and [scan] is the order in which the
    query of this request reads the table.  [total] is below 2^53, so the
    quotient [total / limit] rounds to an integer only if it is one, and
    [Math.ceil] of it is the exact ceiling. *)
Definition getAllUrls (scan : Scan) (page_q limit_q : option Z)
  (protocol host : string) (t : Table) : Response :=
  let page := or_default page_q 1 in
  let limit := or_default limit_q 50 in
  let offset := Js.mul (Js.sub page 1) limit in
  match Database.getAllUrls scan (Some limit) (Some offset) t with
  | Return (urls, total) =>
      let urlsWithShortUrl :=
        map (fun url => {| url_record := url;
                           shortUrl := baseUrl protocol host ++ "/" ++ shortCode url |})
            urls in
      json 200 (UrlList urlsWithShortUrl
                  {| page := page;
                     limit := limit;
                     total := total;
                     totalPages := Math_ceil_div total limit;
                     hasNext := Js.mul page limit <? total;
                     hasPrev := page >? 1 |}
                  {| found_total := total; showing_page := page |})
  | Throw _ => internalServerError
  end.

(** [DELETE /api/urls/:shortCode] *)
Definition deleteUrl (shortCode : string) (t : Table) : Table * Response :=
  if (shortCode =? "")%string then (t, shortCodeRequired)
  else
    let (t', deleted) := Database.deleteUrl shortCode t in
    if negb deleted then (t', json 404 (Failure "URL not found"))
    else (t', json 200 (Success "URL deleted successfully")).

(** [GET /api/stats/:shortCode] *)
Definition getUrlStats (shortCode : string) (protocol host : string) (t : Table)
  : Response :=
  if (shortCode =? "")%string then shortCodeRequired
  else
    match getUrlByShortCode shortCode t with
    | None => json 404 (Failure "URL not found")
    | Some urlRecord =>
        json 200 (UrlStats
          {| url_record := urlRecord;
             shortUrl := baseUrl protocol host ++ "/" ++ Types.shortCode urlRecord |})
    end.

(** The records of a list answer. *)
Definition listed (r : Response) : list Url :=
  match r with
  | json _ (UrlList data _ _) => map url_record data
  | _ => []
  end.

(** The table after [n] requests [GET /:shortCode] for the same code. *)
Fixpoint redirects (n : nat) (shortCode : string) (t : Table) : Table :=
  match n with
  | O => t
  | S n' => redirects n' shortCode (fst (redirectToOriginalUrl shortCode t))
  end.

End UrlController.


(* ------------------------------------------------------------------------- *)
(** ** src/middleware/rateLimiter.ts *)

Module RateLimiter.

(** An entry of [RateLimitStore]. *)
Record ClientData : Type := mkClientData {
  count : Z;
  resetTime : Z
}.

(** The store object, read through its own properties: [store k] is the entry
    under the key [k], if there is one.  The keys are client addresses. *)
Definition RateLimitStore : Type := string -> option ClientData.

(** [store = {}] *)
Definition empty : RateLimitStore := fun _ => None.

(** [store[k] = v] *)
Definition set (store : RateLimitStore) (k : string) (v : ClientData)
  : RateLimitStore :=
  fun k' => if (k' =? k)%string then Some v else store k'.

(** The two fields the constructor sets. *)
Record SimpleRateLimiter : Type := mkSimpleRateLimiter {
  windowMs : Z;
  maxRequests : Z
}.

(** [new SimpleRateLimiter(windowMs = 15 * 60 * 1000, maxRequests = 100)] *)
Definition new (windowMs maxRequests : option Z) : SimpleRateLimiter :=
  {| windowMs := match windowMs with Some w => w | None => 15 * 60 * 1000 end;
     maxRequests := match maxRequests with Some m => m | None => 100 end |}.

(** [req.ip || req.connection.remoteAddress || 'unknown'] *)
Definition clientId (ip remoteAddress : option string) : string :=
  match ip with
  | Some a => if (a =? "")%string then
                match remoteAddress with
                | Some b => if (b =? "")%string then "unknown" else b
                | None => "unknown"
                end
              else a
  | None => match remoteAddress with
            | Some b => if (b =? "")%string then "unknown" else b
            | None => "unknown"
            end
  end.

(** What the middleware does with the request: it calls [next()], or it
    answers 429 with the field [retryAfter]. *)
Inductive Outcome : Type :=
| next
| tooManyRequests (retryAfter : Z).

(** The function that [middleware()] returns, for a request of the client
    [clientId] at the time [now = Date.now()]. *)
Definition middleware (self : SimpleRateLimiter) (clientId : string) (now : Z)
  (store : RateLimitStore) : RateLimitStore * Outcome :=
  match store clientId with
  | None =>
      (set store clientId {| count := 1; resetTime := now + windowMs self |}, next)
  | Some clientData =>
      if now >? resetTime clientData then
        (set store clientId {| count := 1; resetTime := now + windowMs self |}, next)
      else if count clientData >=? maxRequests self then
        (store,
         tooManyRequests
           (UrlController.Math_ceil_div (resetTime clientData - now) 1000))
      else
        (set store clientId {| count := count clientData + 1;
                               resetTime := resetTime clientData |}, next)
  end.

(** The requests of one client at the times [times], one after the other. *)
Fixpoint serve (self : SimpleRateLimiter) (clientId : string) (times : list Z)
  (store : RateLimitStore) : RateLimitStore * list Outcome :=
  match times with
  | [] => (store, [])
  | now :: times' =>
      let (store1, outcome) := middleware self clientId now store in
      let (store2, outcomes) := serve self clientId times' store1 in
      (store2, outcome :: outcomes)
  end.

Definition is_next (o : Outcome) : bool :=
  match o with next => true | tooManyRequests _ => false end.

(** The number of requests that were let through. *)
Definition passed (outcomes : list Outcome) : Z :=
  Z.of_nat (List.length (filter is_next outcomes)).

(** The limiter of the application: 100 requests in 15 minutes. *)
Definition rateLimiter : SimpleRateLimiter := new (Some (15 * 60 * 1000)) (Some 100).

End RateLimiter.


(* ------------------------------------------------------------------------- *)
(** ** An executable platform

    A small implementation of [Platform] for URLs of the shape
    [scheme://host[:port][/path]], used to run the handlers on concrete
    requests. *)

Module SimplePlatform.

(** The part of [s] before the first [c], and the part after it if there is one. *)
Fixpoint split_at (c : ascii) (s : string) : string * option string :=
  match s with
  | EmptyString => (EmptyString, None)
  | String d s' =>
      if Ascii.eqb d c then (EmptyString, Some s')
      else let (before, after) := split_at c s' in (String d before, after)
  end.

Fixpoint contains_char (c : ascii) (s : string) : bool :=
  match s with
  | EmptyString => false
  | String d s' => Ascii.eqb d c || contains_char c s'
  end.

(** [scheme://authority/path] with a non-empty host; the path defaults to [/]. *)
Definition parse_with (scheme s : string) : option URL :=
  let prefix := scheme ++ "://" in
  if String.prefix prefix s then
    let rest := substring (String.length prefix)
                  (String.length s - String.length prefix) s in
    let (authority, path) := split_at "/" rest in
    let (host, port) := split_at ":" authority in
    if (host =? "")%string then None
    else Some {| hostname := host;
                 toString := prefix ++ authority ++ "/"
                             ++ match path with Some p => p | None => "" end |}
  else None.

Definition parse (s : string) : option (string * URL) :=
  match parse_with "http" s, parse_with "https" s, parse_with "ftp" s with
  | Some u, _, _ => Some ("http", u)
  | _, Some u, _ => Some ("https", u)
  | _, _, Some u => Some ("ftp", u)
  | _, _, _ => None
  end.

(** Accepts a parsed URL whose scheme is listed and whose host has a dot. *)
Definition isURL (s : string) (options : IsURLOptions) : bool :=
  match parse s with
  | Some (scheme, u) =>
      Js.includes (protocols options) scheme && contains_char "." (hostname u)
  | None => false
  end.

#[export] Instance platform : Platform :=
  {| validator_isURL := isURL;
     URL_new := fun s => option_map snd (parse s) |}.

End SimplePlatform.


(* ------------------------------------------------------------------------- *)
(** ** The two libraries on plain URLs

    A second implementation of [Platform], for the strings of fewer than 2083
    characters and of the shape [scheme://host[/path]] in which the scheme is
    http, https or ftp in any letter case, the host is two or more labels of
    at most 63 letters and digits joined by dots, the last label being two or
    more letters, and the path is made of letters, digits, slashes, hyphens,
    underscores and spaces and does not end with a space.  On these strings it
    does what the two libraries do: [validator.isURL] refuses a string with
    white space or an angle bracket and asks for a listed protocol; [URL] puts
    the scheme and the host in lower case and writes a space of the path as
    [%20].  Every other string it refuses, which the libraries need not do. *)

Module PlainUrls.

(** [/[\s<>]/], on the code units of the model: the white space is tab, line
    feed, vertical tab, form feed, carriage return, space and no-break space. *)
Definition blank_or_angle (c : ascii) : bool :=
  (((9 <=? N_of_ascii c) && (N_of_ascii c <=? 13))
   || (N_of_ascii c =? 32) || (N_of_ascii c =? 160)
   || (N_of_ascii c =? 60) || (N_of_ascii c =? 62))%N.

Definition letter (c : ascii) : bool := Js.is_lower c || Js.is_upper c.

Definition letter_or_digit (c : ascii) : bool := letter c || Js.is_digit c.

(** The parts of [s] between the occurrences of [c]. *)
Fixpoint split (c : ascii) (s : string) : list string :=
  match s with
  | EmptyString => [EmptyString]
  | String d s' =>
      if Ascii.eqb d c then EmptyString :: split c s'
      else match split c s' with
           | part :: parts => String d part :: parts
           | [] => [String d EmptyString]
           end
  end.

Definition label_ok (l : string) : bool :=
  negb (l =? "")%string && (String.length l <=? 63)%nat
  && Js.all_chars letter_or_digit l.

Definition host_ok (host : string) : bool :=
  let labels := split "." host in
  (2 <=? List.length labels)%nat
  && forallb label_ok labels
  && (2 <=? String.length (last labels ""))%nat
  && Js.all_chars letter (last labels "").

Fixpoint ends_with_space (s : string) : bool :=
  match s with
  | EmptyString => false
  | String c EmptyString => Ascii.eqb c " "
  | String _ s' => ends_with_space s'
  end.

Definition path_char (c : ascii) : bool :=
  letter_or_digit c || Ascii.eqb c "/" || Ascii.eqb c "-" || Ascii.eqb c "_"
  || Ascii.eqb c " ".

Definition path_ok (path : string) : bool :=
  Js.all_chars path_char path && negb (ends_with_space path).

(** The path as [URL] writes it. *)
Fixpoint encode_path (s : string) : string :=
  match s with
  | EmptyString => EmptyString
  | String c s' =>
      if Ascii.eqb c " " then "%20" ++ encode_path s'
      else String c (encode_path s')
  end.

(** The scheme and the URL object of [s]. *)
Definition parse (s : string) : option (string * URL) :=
  match SimplePlatform.split_at ":" s with
  | (p, Some after) =>
      if String.prefix "//" after
         && Js.includes ["http"; "https"; "ftp"] (Js.toLowerCase p)
      then
        match SimplePlatform.split_at "/"
                (substring 2 (String.length after - 2) after) with
        | (host, path) =>
            if (String.length s <? 2083)%nat
               && host_ok host
               && path_ok (match path with Some q => q | None => "" end)
            then
              Some (Js.toLowerCase p,
                    {| hostname := Js.toLowerCase host;
                       toString :=
                         Js.toLowerCase p ++ "://" ++ Js.toLowerCase host ++ "/"
                         ++ encode_path
                              (match path with Some q => q | None => "" end) |})
            else None
        end
      else None
  | (_, None) => None
  end.

(** [validator.isURL]: no white space and no angle bracket, and a listed
    protocol. *)
Definition isURL (s : string) (options : IsURLOptions) : bool :=
  Js.all_chars (fun c => negb (blank_or_angle c)) s
  && match parse s with
     | Some (scheme, u) => Js.includes (protocols options) scheme
     | None => false
     end.

Definition platform : Platform :=
  {| validator_isURL := isURL;
     URL_new := fun s => option_map snd (parse s) |}.

End PlainUrls.


(* ------------------------------------------------------------------------- *)
(** ** Concrete tables and requests *)

Module Examples.

Import Types Database UrlController.

(** A link whose counter has reached the top of the [INTEGER] range. *)
Definition busyLink : NewUrl :=
  {| new_originalUrl := "https://example.com";
     new_shortCode := "abc123";
     new_clickCount := 2147483647 |}.

Definition busyTable : Table := run [OpCreateUrl 1000 busyLink] initDatabase.

Definition freshLink : NewUrl :=
  {| new_originalUrl := "https://example.com";
     new_shortCode := "abc123";
     new_clickCount := 0 |}.

Definition freshTable : Table := run [OpCreateUrl 1000 freshLink] initDatabase.

(** A random source that counts: byte [i] is [i]. *)
Definition countingSource : ShortCodeGenerator.Random := fun i => N.of_nat i.

(** A table in which the first [n] codes drawn from [countingSource] are taken. *)
Definition takenTable (n : nat) : Table :=
  run (map (fun k => OpCreateUrl (Z.of_nat k)
                       {| new_originalUrl := "https://example.com";
                          new_shortCode := nth_generated countingSource k;
                          new_clickCount := 0 |})
           (seq 0 n))
      initDatabase.

(** Two orders of reading the table: as the rows were stored, and backwards. *)
Definition scan_as_stored : Scan :=
  {| scan_rows := fun l => l; scan_perm := @Permutation_refl Row |}.

Definition scan_backwards : Scan :=
  {| scan_rows := @rev Row;
     scan_perm := fun l => Permutation_sym (Permutation_rev l) |}.

Definition plainRequest : ShortenRequest :=
  {| body_url := Js.Str "https://example.com";
     body_customCode := Js.Undefined;
     req_protocol := "http";
     req_host := "sho.rt" |}.

Definition githubRequest : ShortenRequest :=
  {| body_url := Js.Str "https://github.com/";
     body_customCode := Js.Str "github";
     req_protocol := "http";
     req_host := "sho.rt" |}.

End Examples.

(* ------------------------------------------------------------------------- *)
(** * Properties *)

(** ** Strings *)

Section StringFacts.

Lemma prefix_iff_append (p s : string) :
  String.prefix p s = true <-> exists rest, s = p ++ rest.
Proof.
  revert s; induction p as [|c p IH]; intros s.
  - destruct s; simpl; split; eauto.
  - destruct s as [|d s]; simpl.
    + split; [discriminate | intros [rest E]; discriminate].
    + destruct (ascii_dec c d) as [->|N].
      * rewrite IH. split; intros [rest E]; exists rest; congruence.
      * split; [discriminate | intros [rest E]; congruence].
Qed.

Lemma string_eqb_false_iff (a b : string) : (a =? b)%string = false <-> a <> b.
Proof.
  destruct (String.eqb_spec a b); split; congruence.
Qed.

Lemma all_chars_Forall (p : ascii -> bool) (s : string) :
  Js.all_chars p s = true <->
  Forall (fun c => p c = true) (list_ascii_of_string s).
Proof.
  induction s as [|c s IH]; simpl.
  - split; auto.
  - rewrite andb_true_iff, IH. split.
    + intros [? ?]; constructor; assumption.
    + intros F; inversion F; auto.
Qed.

Lemma includes_In (xs : list string) (x : string) :
  Js.includes xs x = true <-> In x xs.
Proof.
  unfold Js.includes. rewrite existsb_exists. split.
  - intros [y [I E]]. apply String.eqb_eq in E. congruence.
  - intros I. exists x. split; [assumption | apply String.eqb_refl].
Qed.

Lemma replace_trailing_slash_append (h : string) :
  Js.replace_trailing_slash (h ++ "/") = h.
Proof.
  induction h as [|c h IH]; [reflexivity|].
  cbn [append Js.replace_trailing_slash]. rewrite IH.
  destruct h; reflexivity.
Qed.

Lemma replace_trailing_slash_cases (s : string) :
  (exists h, s = h ++ "/" /\ Js.replace_trailing_slash s = h)
  \/ ((forall h, s <> h ++ "/") /\ Js.replace_trailing_slash s = s).
Proof.
  induction s as [|c s IH].
  - right. split; [intros [|? ?]; discriminate | reflexivity].
  - destruct s as [|d s].
    + simpl. destruct (Ascii.eqb_spec c "/") as [->|N].
      * left. exists "". split; reflexivity.
      * right. split; [|reflexivity].
        intros [|e [|? ?]]; simpl; congruence.
    + destruct IH as [[h [E R]]|[N R]].
      * left. exists (String c h).
        change (Js.replace_trailing_slash (String c (String d s)))
          with (String c (Js.replace_trailing_slash (String d s))).
        rewrite R, E. split; reflexivity.
      * right.
        change (Js.replace_trailing_slash (String c (String d s)))
          with (String c (Js.replace_trailing_slash (String d s))).
        rewrite R. split; [|reflexivity].
        intros [|e h]; simpl; [discriminate|].
        intros E. injection E as _ E. exact (N h E).
Qed.

End StringFacts.

(** ** The URL validator *)

Section UrlValidatorFacts.

Context `{Platform}.

Import UrlValidator.

Lemma private_host_false_iff (h : string) :
  private_host h = false <->
  h <> "localhost" /\ h <> "127.0.0.1"
  /\ (forall rest, h <> "192.168." ++ rest)
  /\ (forall rest, h <> "10." ++ rest)
  /\ (forall rest, h <> "172." ++ rest).
Proof.
  unfold private_host, Js.startsWith.
  rewrite !orb_false_iff, !string_eqb_false_iff.
  assert (P : forall p, String.prefix p h = false <-> forall rest, h <> p ++ rest).
  { intros p. split.
    - intros F rest E.
      assert (T : String.prefix p h = true) by (apply prefix_iff_append; eauto).
      congruence.
    - intros N. destruct (String.prefix p h) eqn:E; [|reflexivity].
      apply prefix_iff_append in E. destruct E as [rest E]. destruct (N rest E). }
  rewrite !P. tauto.
Qed.

Lemma isValidUrl_not_string (v : Js.Value) :
  Js.is_string v = false -> isValidUrl v = false.
Proof.
  intros E. unfold isValidUrl. rewrite E. simpl. rewrite orb_true_r. reflexivity.
Qed.

Lemma isValidUrl_string (s : string) :
  isValidUrl (Js.Str s) =
  negb (s =? "")%string
  && validator_isURL s isURL_options
  && match URL_new s with
     | Some urlObj => negb (private_host (hostname urlObj))
     | None => false
     end.
Proof.
  unfold isValidUrl. simpl.
  destruct (s =? "")%string; simpl; [reflexivity|].
  destruct (validator_isURL s isURL_options); simpl; [|reflexivity].
  destruct (URL_new s) as [u|]; [|reflexivity].
  destruct (private_host (hostname u)); reflexivity.
Qed.

(** C1.  [isValidUrl] answers [true] exactly for a non-empty string that
    [validator.isURL] accepts with the protocols http and https and a required
    protocol, that the URL constructor parses, and whose host name is neither
    [localhost] nor [127.0.0.1] and starts with none of [192.168.], [10.] and
    [172.].  With a [validator.isURL] that accepts only a string starting with
    a listed protocol and a colon, and a URL constructor that keeps such a
    protocol, every string it accepts parses as a URL whose string form starts
    with [http://] or [https://], so as an absolute URL of scheme http or
    https, and whose host is none of the refused ones.  A value that is not a
    string, the empty string and a string the URL constructor rejects all give
    [false].  The function is total: a failing parse is an answer, not an
    exception. *)
Theorem isValidUrl_iff :
  (forall v : Js.Value,
     isValidUrl v = true <->
     exists (s : string) (u : URL),
       v = Js.Str s /\ s <> ""
       /\ validator_isURL s
            {| protocols := ["http"; "https"]; require_protocol := true |} = true
       /\ URL_new s = Some u
       /\ hostname u <> "localhost" /\ hostname u <> "127.0.0.1"
       /\ (forall rest, hostname u <> "192.168." ++ rest)
       /\ (forall rest, hostname u <> "10." ++ rest)
       /\ (forall rest, hostname u <> "172." ++ rest))
  /\ (isURL_requires_protocol -> URL_keeps_protocol ->
      forall v : Js.Value,
        isValidUrl v = true ->
        exists (s : string) (u : URL) (tail : string),
          v = Js.Str s /\ URL_new s = Some u
          /\ (toString u = "http://" ++ tail \/ toString u = "https://" ++ tail)
          /\ hostname u <> "localhost" /\ hostname u <> "127.0.0.1"
          /\ (forall rest, hostname u <> "192.168." ++ rest)
          /\ (forall rest, hostname u <> "10." ++ rest)
          /\ (forall rest, hostname u <> "172." ++ rest))
  /\ (forall v : Js.Value, Js.is_string v = false -> isValidUrl v = false)
  /\ isValidUrl (Js.Str "") = false
  /\ (forall s : string, URL_new s = None -> isValidUrl (Js.Str s) = false).
Proof.
  assert (I : forall v : Js.Value,
            isValidUrl v = true ->
            exists (s : string) (u : URL),
              v = Js.Str s /\ s <> ""
              /\ validator_isURL s isURL_options = true
              /\ URL_new s = Some u
              /\ private_host (hostname u) = false).
  { intros v V. destruct v as [| |b|n|s|];
      try (rewrite isValidUrl_not_string in V by reflexivity; discriminate).
    rewrite isValidUrl_string in V.
    apply andb_true_iff in V. destruct V as [V U].
    apply andb_true_iff in V. destruct V as [E V].
    destruct (URL_new s) as [u|] eqn:P; [|discriminate].
    exists s, u. apply negb_true_iff in E, U.
    apply string_eqb_false_iff in E. repeat split; assumption. }
  split; [|split; [|split; [|split]]].
  - intros v. split.
    + intros V. destruct (I v V) as (s & u & -> & E & A & P & U).
      exists s, u. apply private_host_false_iff in U.
      repeat split; try tauto; exact A.
    + intros (s & u & -> & E & V & P & U).
      rewrite isValidUrl_string, P.
      apply string_eqb_false_iff in E. apply private_host_false_iff in U.
      change (validator_isURL s isURL_options = true) in V.
      rewrite E, V, U. reflexivity.
  - intros L1 L2 v V. destruct (I v V) as (s & u & -> & E & A & P & U).
    destruct (L1 s isURL_options A eq_refl) as (p & rest & S & Q).
    assert (Q' : Js.toLowerCase p = "http" \/ Js.toLowerCase p = "https").
    { simpl in Q. destruct Q as [Q|[Q|[]]]; auto. }
    destruct (L2 s u p rest P S Q') as (tail & T).
    exists s, u, tail. apply private_host_false_iff in U.
    split; [reflexivity|]. split; [exact P|].
    split; [|exact U].
    destruct Q' as [Q'|Q']; rewrite Q' in T; [left | right]; exact T.
  - exact isValidUrl_not_string.
  - rewrite isValidUrl_string. reflexivity.
  - intros s P. rewrite isValidUrl_string, P. apply andb_false_r.
Qed.

(** C6.  When the input parses, [normalizeUrl] gives the string form of the
    parsed URL without its final slash: a string form [h/] becomes [h] (so of two
    final slashes the first one stays), and a string form without a final slash
    is returned as it is.  When the input does not parse, the input itself is
    returned.  The function is total. *)
Theorem normalizeUrl_spec (input : string) :
  match URL_new input with
  | Some u =>
      (forall h, toString u = h ++ "/" -> normalizeUrl input = h)
      /\ (forall h, toString u = h ++ "//" -> normalizeUrl input = h ++ "/")
      /\ ((forall h, toString u <> h ++ "/") -> normalizeUrl input = toString u)
  | None => normalizeUrl input = input
  end.
Proof.
  unfold normalizeUrl. destruct (URL_new input) as [u|]; [|reflexivity].
  split; [|split].
  - intros h E. rewrite E. apply replace_trailing_slash_append.
  - intros h E. rewrite E.
    replace (h ++ "//") with ((h ++ "/") ++ "/").
    + apply replace_trailing_slash_append.
    + clear E. induction h as [|c h IH]; simpl; [reflexivity | now rewrite IH].
  - intros N. destruct (replace_trailing_slash_cases (toString u))
      as [[h [E _]]|[_ R]]; [destruct (N h E) | exact R].
Qed.

End UrlValidatorFacts.

(** ** The validator on plain URLs *)

Section PlainUrlFacts.

Import UrlValidator.

Lemma split_at_spec (c : ascii) (s a b : string) :
  SimplePlatform.split_at c s = (a, Some b) -> s = a ++ String c b.
Proof.
  revert a; induction s as [|d s IH]; simpl; intros a E; [discriminate|].
  destruct (Ascii.eqb_spec d c) as [->|N].
  - inversion E; subst. reflexivity.
  - destruct (SimplePlatform.split_at c s) as [before after].
    inversion E; subst. simpl. f_equal. now apply IH.
Qed.

Lemma split_at_app (c : ascii) (a b : string) :
  SimplePlatform.contains_char c a = false ->
  SimplePlatform.split_at c (a ++ String c b) = (a, Some b).
Proof.
  induction a as [|d a IH]; simpl; intros N.
  - now rewrite Ascii.eqb_refl.
  - apply orb_false_iff in N. destruct N as [N1 N2].
    rewrite N1, (IH N2). reflexivity.
Qed.

Lemma lower_char_colon (c : ascii) :
  Ascii.eqb (Js.lower_char c) ":" = Ascii.eqb c ":".
Proof. destruct c as [[] [] [] [] [] [] [] []]; reflexivity. Qed.

Lemma contains_colon_lower (s : string) :
  SimplePlatform.contains_char ":" (Js.toLowerCase s)
  = SimplePlatform.contains_char ":" s.
Proof.
  induction s as [|c s IH]; simpl; [reflexivity|].
  now rewrite lower_char_colon, IH.
Qed.

Lemma parse_Some (s scheme : string) (u : URL) :
  PlainUrls.parse s = Some (scheme, u) ->
  exists p rest tail,
    SimplePlatform.split_at ":" s = (p, Some ("//" ++ rest))
    /\ scheme = Js.toLowerCase p
    /\ toString u = scheme ++ "://" ++ tail.
Proof.
  unfold PlainUrls.parse. intros E.
  destruct (SimplePlatform.split_at ":" s) as [p [after|]]; [|discriminate].
  destruct (String.prefix "//" after) eqn:P; [|discriminate].
  apply prefix_iff_append in P. destruct P as [rest ->].
  destruct (Js.includes ["http"; "https"; "ftp"] (Js.toLowerCase p));
    [|discriminate].
  cbn [andb] in E.
  destruct (SimplePlatform.split_at "/" _) as [host path].
  destruct (_ && PlainUrls.host_ok host && _); [|discriminate].
  inversion E; subst. exists p, rest. eexists.
  split; [reflexivity|]. split; reflexivity.
Qed.

Lemma plain_isURL_requires_protocol :
  @isURL_requires_protocol PlainUrls.platform.
Proof.
  intros s options A _. cbn [validator_isURL PlainUrls.platform] in A.
  unfold PlainUrls.isURL in A.
  apply andb_true_iff in A. destruct A as [_ A].
  destruct (PlainUrls.parse s) as [[scheme u]|] eqn:P; [|discriminate].
  destruct (parse_Some s scheme u P) as (p & rest & tail & S & -> & _).
  apply split_at_spec in S.
  exists p, ("//" ++ rest). split; [exact S|]. now apply includes_In.
Qed.

Lemma plain_URL_keeps_protocol : @URL_keeps_protocol PlainUrls.platform.
Proof.
  intros s u p rest P S Q. cbn [URL_new PlainUrls.platform] in P.
  destruct (PlainUrls.parse s) as [[scheme u']|] eqn:E; [|discriminate].
  simpl in P. inversion P; subst u'.
  destruct (parse_Some s scheme u E) as (p0 & rest0 & tail & S0 & -> & T).
  assert (N : SimplePlatform.contains_char ":" p = false).
  { rewrite <- contains_colon_lower. destruct Q as [-> | ->]; reflexivity. }
  assert (S1 : SimplePlatform.split_at ":" s = (p, Some rest)).
  { rewrite S. apply (split_at_app ":" p rest N). }
  rewrite S1 in S0. inversion S0; subst. exists tail. exact T.
Qed.

(** C1, as stated, fails in its [if] half: the string
    [https://example.com/a b] parses as an absolute URL of scheme https with
    the host [example.com], which is none of the refused ones, and
    [isValidUrl] answers [false], because [validator.isURL] refuses a string
    with a space. *)
Lemma isValidUrl_refuses_space :
  URL_new (Platform := PlainUrls.platform) "https://example.com/a b"
  = Some {| hostname := "example.com"; toString := "https://example.com/a%20b" |}
  /\ private_host "example.com" = false
  /\ validator_isURL (Platform := PlainUrls.platform) "https://example.com/a b"
       {| protocols := ["http"; "https"]; require_protocol := true |} = false
  /\ isValidUrl (H := PlainUrls.platform) (Js.Str "https://example.com/a b") = false
  /\ ~ (isValidUrl (H := PlainUrls.platform) (Js.Str "https://example.com/a b") = true
        <-> exists u tail,
              URL_new (Platform := PlainUrls.platform) "https://example.com/a b"
              = Some u
              /\ (toString u = "http://" ++ tail \/ toString u = "https://" ++ tail)
              /\ private_host (hostname u) = false).
Proof.
  split; [reflexivity|]. split; [reflexivity|]. split; [reflexivity|].
  split; [reflexivity|].
  intros [_ B].
  assert (V : isValidUrl (H := PlainUrls.platform)
                (Js.Str "https://example.com/a b") = true).
  { apply B. eexists _, "example.com/a%20b". split; [reflexivity|].
    split; [right; reflexivity | reflexivity]. }
  discriminate V.
Qed.

End PlainUrlFacts.

(** ** The short-code generator *)

Section ShortCodeGeneratorFacts.

Import ShortCodeGenerator.

(** The characters [[a-zA-Z0-9]] are those of [ALLOWED_CHARS]. *)
Lemma alnum_ALLOWED_CHARS (c : ascii) :
  Js.is_lower c || Js.is_upper c || Js.is_digit c = true <->
  In c (list_ascii_of_string ALLOWED_CHARS).
Proof.
  assert (E : Js.is_lower c || Js.is_upper c || Js.is_digit c
              = existsb (Ascii.eqb c) (list_ascii_of_string ALLOWED_CHARS)).
  { destruct c as [[] [] [] [] [] [] [] []]; reflexivity. }
  rewrite E, existsb_exists. split.
  - intros [d [I Q]]. apply Ascii.eqb_eq in Q. congruence.
  - intros I. exists c. split; [assumption | apply Ascii.eqb_refl].
Qed.

Lemma allowedPattern_test_iff (code : string) :
  allowedPattern_test code = true <->
  code <> ""
  /\ Forall (fun c => In c (list_ascii_of_string ALLOWED_CHARS))
       (list_ascii_of_string code).
Proof.
  unfold allowedPattern_test.
  rewrite andb_true_iff, negb_true_iff, string_eqb_false_iff, all_chars_Forall.
  rewrite !Forall_forall.
  split; intros [N F]; (split; [exact N|]); intros c I;
    apply alnum_ALLOWED_CHARS; auto.
Qed.

Lemma isValidCustomCode_string (code : string) :
  isValidCustomCode (Js.Str code) =
  (3 <=? Js.length code) && (Js.length code <=? 20)
  && allowedPattern_test code
  && negb (Js.includes reservedWords (Js.toLowerCase code)).
Proof.
  unfold isValidCustomCode, CUSTOM_CODE_MAX_LENGTH.
  cbn [Js.truthy Js.is_string Js.as_string].
  destruct code as [|c code]; [reflexivity|].
  set (code' := String c code). set (L := Js.length code').
  replace (code' =? "")%string with false by reflexivity.
  rewrite Z.gtb_ltb. cbn [negb orb].
  destruct (Z.ltb_spec L 3), (Z.ltb_spec 20 L), (Z.leb_spec 3 L), (Z.leb_spec L 20);
    try lia; cbn [negb orb andb]; try reflexivity.
  destruct (allowedPattern_test code'); cbn [negb orb andb]; [|reflexivity].
  destruct (Js.includes reservedWords (Js.toLowerCase code')); reflexivity.
Qed.

(** C4.  For a string [code], [isValidCustomCode] answers [true] exactly when
    the length of [code] lies between 3 and 20, [code] is a non-empty run of
    letters and digits (every character is one of [ALLOWED_CHARS], which holds
    neither hyphen nor underscore) and the lower-case form of [code] is none of
    the reserved words; a string that only contains a reserved word, such as
    [apptest], is accepted, while [api], a reserved word in capitals, a code of
    two characters, one of twenty-one characters and one with a hyphen are not. *)
Theorem isValidCustomCode_iff :
  (forall code : string,
     isValidCustomCode (Js.Str code) = true <->
     3 <= Js.length code <= 20
     /\ (code <> ""
         /\ Forall (fun c => In c (list_ascii_of_string ALLOWED_CHARS))
              (list_ascii_of_string code))
     /\ ~ In (Js.toLowerCase code)
            ["api"; "admin"; "www"; "app"; "dashboard"; "health"; "status"])
  /\ isValidCustomCode (Js.Str "apptest") = true
  /\ isValidCustomCode (Js.Str "api") = false
  /\ isValidCustomCode (Js.Str "Admin") = false
  /\ isValidCustomCode (Js.Str "ab") = false
  /\ isValidCustomCode (Js.Str "aaaaaaaaaaaaaaaaaaaaa") = false
  /\ isValidCustomCode (Js.Str "test-code") = false
  /\ isValidCustomCode (Js.Str "test_code") = false.
Proof.
  split; [|repeat split; reflexivity].
  intros code. rewrite isValidCustomCode_string.
  rewrite !andb_true_iff, negb_true_iff, Z.leb_le, Z.leb_le, allowedPattern_test_iff.
  change ["api"; "admin"; "www"; "app"; "dashboard"; "health"; "status"]
    with reservedWords.
  rewrite <- includes_In.
  destruct (Js.includes reservedWords (Js.toLowerCase code)); intuition congruence.
Qed.

Lemma land_63_lt (b : N) : (N.land b 63 < 64)%N.
Proof.
  change 63%N with (N.ones 6). rewrite N.land_ones.
  apply N.mod_lt. discriminate.
Qed.

Lemma alphabet_char_url_safe (b : N) : url_safe (alphabet_char (N.land b 63)) = true.
Proof.
  assert (A : forallb (fun i => url_safe (alphabet_char (N.of_nat i))) (seq 0 64) = true)
    by reflexivity.
  rewrite forallb_forall in A.
  pose proof (land_63_lt b) as B.
  rewrite <- (N2Nat.id (N.land b 63)). apply A. apply in_seq. lia.
Qed.

Lemma alphabet_char_In (b : N) :
  In (alphabet_char (N.land b 63)) (list_ascii_of_string urlAlphabet).
Proof.
  assert (A : forallb (fun i => existsb (Ascii.eqb (alphabet_char (N.of_nat i)))
                                  (list_ascii_of_string urlAlphabet))
                (seq 0 64) = true) by reflexivity.
  rewrite forallb_forall in A.
  pose proof (land_63_lt b) as B.
  specialize (A (N.to_nat (N.land b 63))).
  rewrite N2Nat.id in A.
  destruct (proj1 (existsb_exists _ _) (A ltac:(apply in_seq; lia))) as [d [I Q]].
  apply Ascii.eqb_eq in Q. rewrite Q. exact I.
Qed.

Lemma nanoid_chars_length (size : nat) (rnd : Random) :
  String.length (nanoid_chars size rnd) = size.
Proof.
  revert rnd; induction size as [|size IH]; intros rnd; simpl; [|rewrite IH];
    reflexivity.
Qed.

Lemma nanoid_chars_alphabet (size : nat) (rnd : Random) :
  Forall (fun c => url_safe c = true /\ In c (list_ascii_of_string urlAlphabet))
    (list_ascii_of_string (nanoid_chars size rnd)).
Proof.
  revert rnd; induction size as [|size IH]; intros rnd;
    cbn [nanoid_chars list_ascii_of_string]; constructor.
  - split; [apply alphabet_char_url_safe | apply alphabet_char_In].
  - apply IH.
Qed.

Lemma distinct_chars_NoDup (l : list ascii) :
  Js.distinct_chars l = true -> NoDup l.
Proof.
  induction l as [|c l IH]; intros E; constructor.
  - apply andb_true_iff in E. destruct E as [E _].
    apply negb_true_iff in E. intros I.
    assert (T : existsb (Ascii.eqb c) l = true).
    { apply existsb_exists. exists c. split; [assumption | apply Ascii.eqb_refl]. }
    congruence.
  - apply IH. apply andb_true_iff in E. tauto.
Qed.

(** C5.  For every length [n] and every state of the random source,
    [generate(n)] is a string of exactly [n] characters, each an upper-case
    letter, a lower-case letter, a digit, a hyphen or an underscore, taken from an
    alphabet of 64 distinct characters; [generate(0)] is the empty string and a
    call without argument is [generate(6)]. *)
Theorem generate_spec (n : nat) (rnd : Random) :
  String.length (fst (generate (Some n) rnd)) = n
  /\ Forall (fun c => url_safe c = true
                      /\ In c (list_ascii_of_string urlAlphabet))
       (list_ascii_of_string (fst (generate (Some n) rnd)))
  /\ String.length urlAlphabet = 64%nat
  /\ NoDup (list_ascii_of_string urlAlphabet)
  /\ fst (generate (Some 0%nat) rnd) = ""
  /\ generate None rnd = generate (Some 6%nat) rnd.
Proof.
  split; [apply nanoid_chars_length|].
  split; [apply nanoid_chars_alphabet|].
  split; [reflexivity|].
  split; [apply distinct_chars_NoDup; reflexivity|].
  split; reflexivity.
Qed.

End ShortCodeGeneratorFacts.

(** ** The table *)

Section DatabaseFacts.

Import Types Database.

Lemma has_code_true (c : string) (r : Row) : has_code c r = true <-> short_code r = c.
Proof. unfold has_code. apply String.eqb_eq. Qed.

Lemma has_code_false (c : string) (r : Row) : has_code c r = false <-> short_code r <> c.
Proof. unfold has_code. apply string_eqb_false_iff. Qed.

Lemma filter_nil_iff {A : Type} (p : A -> bool) (l : list A) :
  filter p l = [] <-> forall x, In x l -> p x = false.
Proof.
  induction l as [|a l IH]; simpl.
  - split; [intros _ x [] | reflexivity].
  - destruct (p a) eqn:E; split.
    + discriminate.
    + intros F. specialize (F a (or_introl eq_refl)). congruence.
    + intros N x [<-|I]; [assumption | now apply IH].
    + intros F. apply IH. intros x I. apply F. now right.
Qed.

Lemma filter_has_code_absent (c : string) (l : list Row) :
  ~ In c (map short_code l) -> filter (has_code c) l = [].
Proof.
  intros N. apply filter_nil_iff. intros r I. apply has_code_false.
  intros E. apply N. rewrite <- E. now apply in_map.
Qed.

(** Under the [UNIQUE] constraint at most one row has a given code. *)
Lemma filter_has_code_unique (c : string) (l : list Row) :
  NoDup (map short_code l) ->
  filter (has_code c) l = []
  \/ exists r, filter (has_code c) l = [r] /\ In r l /\ short_code r = c.
Proof.
  induction l as [|a l IH]; simpl; intros D; [now left|].
  inversion D as [|? ? N D']; subst.
  destruct (has_code c a) eqn:E.
  - right. exists a. apply has_code_true in E.
    rewrite filter_has_code_absent by (rewrite <- E; exact N). auto.
  - destruct (IH D') as [F|[r [F [I Q]]]]; [now left|].
    right. exists r. auto.
Qed.

Lemma getUrlByShortCode_Some (c : string) (t : Table) (u : Url) :
  getUrlByShortCode c t = Some u ->
  exists r, In r (rows t) /\ short_code r = c /\ u = rowToUrl r.
Proof.
  unfold getUrlByShortCode. destruct (filter (has_code c) (rows t)) as [|r l] eqn:F;
    [discriminate|].
  intros E. injection E as <-. exists r.
  assert (I : In r (filter (has_code c) (rows t))) by (rewrite F; now left).
  apply filter_In in I. destruct I as [I Q]. apply has_code_true in Q. auto.
Qed.

Lemma getUrlByShortCode_None (c : string) (t : Table) :
  getUrlByShortCode c t = None <-> ~ In c (map short_code (rows t)).
Proof.
  unfold getUrlByShortCode. split.
  - destruct (filter (has_code c) (rows t)) as [|r l] eqn:F; [|discriminate].
    intros _ I. apply in_map_iff in I. destruct I as [r [Q I]].
    rewrite filter_nil_iff in F. specialize (F r I).
    apply has_code_false in F. contradiction.
  - intros N. now rewrite filter_has_code_absent.
Qed.

Lemma getUrlByShortCode_rows (c : string) (t t' : Table) :
  rows t' = rows t -> getUrlByShortCode c t' = getUrlByShortCode c t.
Proof. unfold getUrlByShortCode. now intros ->. Qed.

Lemma table_eta (t : Table) : {| rows := rows t; urls_id_seq := urls_id_seq t |} = t.
Proof. now destruct t. Qed.

Lemma map_id_on {A : Type} (f : A -> A) (l : list A) :
  (forall x, In x l -> f x = x) -> map f l = l.
Proof.
  induction l as [|a l IH]; simpl; intros F; [reflexivity|].
  rewrite F, IH; auto.
Qed.

Lemma bumped_codes (c : string) (l : list Row) :
  map short_code (bumped c l) = map short_code l.
Proof.
  unfold bumped. rewrite map_map. apply map_ext. intros r.
  now destruct (has_code c r).
Qed.

Lemma bumped_ids (c : string) (l : list Row) :
  map row_id (bumped c l) = map row_id l.
Proof.
  unfold bumped. rewrite map_map. apply map_ext. intros r.
  now destruct (has_code c r).
Qed.

Lemma filter_bumped (c d : string) (l : list Row) :
  filter (has_code d) (bumped c l) =
  map (fun r => if has_code c r then bump r else r) (filter (has_code d) l).
Proof.
  unfold bumped. induction l as [|a l IH]; simpl; [reflexivity|].
  assert (E : has_code d (if has_code c a then bump a else a) = has_code d a)
    by now destruct (has_code c a).
  rewrite E. destruct (has_code d a); simpl; now rewrite IH.
Qed.


(** The outcome of [incrementClickCount] when one row has the code. *)
Lemma incrementClickCount_single (c : string) (t : Table) (r : Row) :
  filter (has_code c) (rows t) = [r] ->
  incrementClickCount c t =
  if click_count r + 1 >? INT4_MAX
  then (t, Throw numeric_value_out_of_range)
  else ({| rows := bumped c (rows t); urls_id_seq := urls_id_seq t |},
        Return (Some (rowToUrl (bump r)))).
Proof.
  intros F. unfold incrementClickCount.
  assert (X : existsb (fun r => has_code c r && (click_count r + 1 >? INT4_MAX))
                (rows t) = (click_count r + 1 >? INT4_MAX)).
  { rewrite <- (orb_false_r (click_count r + 1 >? INT4_MAX)).
    change (existsb (fun r => has_code c r && (click_count r + 1 >? INT4_MAX)) (rows t)
            = existsb (fun r => click_count r + 1 >? INT4_MAX) [r]).
    rewrite <- F. clear F.
    induction (rows t) as [|a l IH]; simpl; [reflexivity|].
    destruct (has_code c a); simpl; now rewrite IH. }
  rewrite X, F. destruct (click_count r + 1 >? INT4_MAX); reflexivity.
Qed.

End DatabaseFacts.

Section IncrementFacts.

Import Types Database.


Lemma bumped_other_codes (c d : string) (l : list Row) :
  d <> c -> filter (has_code d) (bumped c l) = filter (has_code d) l.
Proof.
  intros N. rewrite filter_bumped. apply map_id_on. intros r I.
  apply filter_In in I. destruct I as [_ Q]. apply has_code_true in Q.
  assert (F : has_code c r = false) by (apply has_code_false; congruence).
  now rewrite F.
Qed.

Lemma unique_filter (c : string) (t : Table) (u : Url) :
  unique_short_codes t -> getUrlByShortCode c t = Some u ->
  exists r, filter (has_code c) (rows t) = [r] /\ u = rowToUrl r /\ short_code r = c.
Proof.
  intros D G. unfold getUrlByShortCode in G.
  destruct (filter_has_code_unique c (rows t) D) as [F|[r [F [I Q]]]];
    rewrite F in G; [discriminate|].
  injection G as <-. exists r. auto.
Qed.

(** A successful increment: the result, the row read back, and the constraint. *)
Lemma incrementClickCount_present (c : string) (t : Table) (u : Url) :
  unique_short_codes t -> getUrlByShortCode c t = Some u -> clickCount u < INT4_MAX ->
  let t' := {| rows := bumped c (rows t); urls_id_seq := urls_id_seq t |} in
  incrementClickCount c t = (t', Return (Some (with_clicks u (clickCount u + 1))))
  /\ getUrlByShortCode c t' = Some (with_clicks u (clickCount u + 1))
  /\ unique_short_codes t'.
Proof.
  intros D G L t'. destruct (unique_filter c t u D G) as [r [F [-> Q]]].
  simpl in L. split; [|split].
  - rewrite (incrementClickCount_single c t r F).
    destruct (Z.gtb_spec (click_count r + 1) INT4_MAX); [lia | reflexivity].
  - unfold getUrlByShortCode, t'. cbn [rows]. rewrite filter_bumped, F. simpl.
    apply has_code_true in Q. now rewrite Q.
  - unfold unique_short_codes, t'. cbn [rows]. now rewrite bumped_codes.
Qed.




End IncrementFacts.

Section InvariantFacts.

Import Types Database.

Lemma createUrl_cases (now : Z) (url : NewUrl) (t : Table) :
  (exists e, createUrl now url t = (t, Throw e))
  \/ (exists e,
        createUrl now url t =
          ({| rows := rows t; urls_id_seq := urls_id_seq t + 1 |}, Throw e))
  \/ (exists row,
        createUrl now url t =
          ({| rows := rows t ++ [row]; urls_id_seq := urls_id_seq t + 1 |},
           Return (rowToUrl row))
        /\ row_id row = urls_id_seq t
        /\ created_at row = now
        /\ click_count row = new_clickCount url
        /\ varchar 2048 (new_originalUrl url) = Some (original_url row)
        /\ varchar 50 (new_shortCode url) = Some (short_code row)
        /\ ~ In (short_code row) (map short_code (rows t))
        /\ ~ In (row_id row) (map row_id (rows t))).
Proof.
  unfold createUrl.
  destruct (urls_id_seq t >? INT4_MAX); [left; eexists; reflexivity|].
  destruct (varchar 2048 (new_originalUrl url)) as [original|];
    [|right; left; eexists; reflexivity].
  destruct (varchar 50 (new_shortCode url)) as [code|];
    [|right; left; eexists; reflexivity].
  destruct (negb (in_int4 (new_clickCount url)));
    [right; left; eexists; reflexivity|].
  destruct (existsb (fun r => row_id r =? urls_id_seq t) (rows t)) eqn:I;
    [right; left; eexists; reflexivity|].
  destruct (existsb (has_code code) (rows t)) eqn:C;
    [right; left; eexists; reflexivity|].
  right; right. eexists. split; [reflexivity|]. cbn.
  repeat split; try reflexivity.
  - intros M. apply in_map_iff in M. destruct M as [r [E M]].
    assert (T : existsb (has_code code) (rows t) = true).
    { apply existsb_exists. exists r. split; [assumption | now apply has_code_true]. }
    congruence.
  - intros M. apply in_map_iff in M. destruct M as [r [E M]].
    assert (T : existsb (fun r => row_id r =? urls_id_seq t) (rows t) = true).
    { apply existsb_exists. exists r. split; [assumption | now apply Z.eqb_eq]. }
    congruence.
Qed.

Lemma incrementClickCount_rows (c : string) (t : Table) :
  fst (incrementClickCount c t) = t
  \/ fst (incrementClickCount c t) =
       {| rows := bumped c (rows t); urls_id_seq := urls_id_seq t |}.
Proof.
  unfold incrementClickCount. destruct (existsb _ (rows t)); [now left|].
  right. destruct (map bump (filter (has_code c) (rows t))); reflexivity.
Qed.

Lemma NoDup_map_filter {A B : Type} (g : A -> B) (p : A -> bool) (l : list A) :
  NoDup (map g l) -> NoDup (map g (filter p l)).
Proof.
  induction l as [|a l IH]; simpl; intros D; [constructor|].
  inversion D as [|? ? N D']; subst. destruct (p a); simpl; [|auto].
  constructor; [|auto]. intros I. apply N.
  apply in_map_iff in I. destruct I as [x [E I]]. apply filter_In in I.
  rewrite <- E. apply in_map. tauto.
Qed.

Lemma NoDup_snoc {A : Type} (l : list A) (x : A) :
  NoDup l -> ~ In x l -> NoDup (l ++ [x]).
Proof.
  induction l as [|a l IH]; simpl; intros D N.
  - constructor; [intros [] | constructor].
  - inversion D as [|? ? M D']; subst. constructor.
    + intros I. apply in_app_or in I. destruct I as [I|[<-|[]]]; tauto.
    + apply IH; tauto.
Qed.

Lemma step_seq_mono (op : Op) (t : Table) : urls_id_seq t <= urls_id_seq (step op t).
Proof.
  destruct op as [now url|c|c|]; simpl; try lia.
  - destruct (createUrl_cases now url t) as [[e E]|[[e E]|[row [E _]]]];
      rewrite E; simpl; lia.
  - destruct (incrementClickCount_rows c t) as [E|E]; rewrite E; simpl; lia.
Qed.

Lemma step_consistent (op : Op) (t : Table) : consistent t -> consistent (step op t).
Proof.
  unfold consistent, unique_short_codes.
  intros (C & I & S). destruct op as [now url|c|c|]; simpl; [| | |repeat split; auto].
  - destruct (createUrl_cases now url t)
      as [[e E]|[[e E]|(row & E & Q & _ & _ & _ & _ & NC & NI)]]; rewrite E; simpl.
    + repeat split; auto.
    + repeat split; auto. simpl. eapply Forall_impl; [|exact S].
      simpl. intros; lia.
    + unfold consistent, unique_short_codes. simpl. rewrite !map_app. simpl.
      repeat split.
      * now apply NoDup_snoc.
      * now apply NoDup_snoc.
      * apply Forall_app. split.
        -- eapply Forall_impl; [|exact S]. simpl. intros; lia.
        -- constructor; [lia | constructor].
  - destruct (incrementClickCount_rows c t) as [E|E]; rewrite E;
      [repeat split; auto|].
    unfold consistent, unique_short_codes. simpl.
    rewrite bumped_codes, bumped_ids. repeat split; auto.
    apply Forall_forall. intros r M. unfold bumped in M.
    apply in_map_iff in M. destruct M as [r0 [Q M]].
    rewrite Forall_forall in S. specialize (S r0 M).
    subst r. now destruct (has_code c r0).
  - unfold consistent, unique_short_codes. simpl. repeat split.
    + now apply NoDup_map_filter.
    + now apply NoDup_map_filter.
    + apply Forall_forall. intros r M. apply filter_In in M.
      rewrite Forall_forall in S. apply S. tauto.
Qed.

Lemma came_from_self (t : Table) (r : Row) : In r (rows t) -> came_from t r.
Proof. intros I. left. exists r. repeat split; auto; lia. Qed.

Lemma step_came_from (op : Op) (t : Table) (r' : Row) :
  In r' (rows (step op t)) -> came_from t r'.
Proof.
  destruct op as [now url|c|c|]; simpl; intros M.
  - destruct (createUrl_cases now url t)
      as [[e E]|[[e E]|(row & E & Q & _)]]; rewrite E in M; simpl in M;
      try now apply came_from_self.
    apply in_app_or in M. destruct M as [M|[<-|[]]]; [now apply came_from_self|].
    right. lia.
  - destruct (incrementClickCount_rows c t) as [E|E]; rewrite E in M;
      [now apply came_from_self|].
    simpl in M. unfold bumped in M. apply in_map_iff in M.
    destruct M as [r [Q M]]. left. exists r. subst r'.
    destruct (has_code c r); simpl; repeat split; auto; lia.
  - apply filter_In in M. apply came_from_self. tauto.
  - now apply came_from_self.
Qed.

Lemma run_cons (op : Op) (ops : list Op) (t : Table) :
  run (op :: ops) t = run ops (step op t).
Proof. reflexivity. Qed.

Lemma run_snoc (ops : list Op) (op : Op) (t : Table) :
  run (ops ++ [op])%list t = step op (run ops t).
Proof. unfold run. now rewrite fold_left_app. Qed.

Lemma run_consistent (ops : list Op) (t : Table) : consistent t -> consistent (run ops t).
Proof.
  revert t; induction ops as [|op ops IH]; intros t C; [assumption|].
  rewrite run_cons. apply IH. now apply step_consistent.
Qed.

Lemma run_came_from (ops : list Op) (t : Table) (r' : Row) :
  In r' (rows (run ops t)) -> came_from t r'.
Proof.
  revert t; induction ops as [|op ops IH]; intros t M;
    [now apply came_from_self|].
  rewrite run_cons in M. apply IH in M.
  destruct M as [(r1 & M1 & I1 & C1 & U1 & T1 & K1)|S].
  - destruct (step_came_from op t r1 M1) as [(r & M & I & C & U & T & K)|S].
    + left. exists r. repeat split; try congruence. lia.
    + right. lia.
  - right. pose proof (step_seq_mono op t). lia.
Qed.

Lemma initDatabase_consistent : consistent initDatabase.
Proof. repeat split; constructor. Qed.

Lemma reachable_consistent (t : Table) : reachable t -> consistent t.
Proof. intros [ops ->]. apply run_consistent, initDatabase_consistent. Qed.

Lemma reachable_step (op : Op) (t : Table) : reachable t -> reachable (step op t).
Proof. intros [ops ->]. exists (ops ++ [op])%list. now rewrite run_snoc. Qed.

Lemma NoDup_map_injective {A B : Type} (g : A -> B) (l : list A) (x y : A) :
  NoDup (map g l) -> In x l -> In y l -> g x = g y -> x = y.
Proof.
  induction l as [|a l IH]; simpl; intros D X Y E; [contradiction|].
  inversion D as [|? ? N D']; subst.
  destruct X as [<-|X], Y as [<-|Y]; auto.
  - destruct N. rewrite E. now apply in_map.
  - destruct N. rewrite <- E. now apply in_map.
Qed.

End InvariantFacts.

(** ** The shorten operation *)

Section ShortenFacts.

Context `{Platform}.

Import Types UrlValidator ShortCodeGenerator Database UrlController.

Lemma nth_generated_succ (rnd : Random) (k : nat) :
  nth_generated rnd (S k) = nth_generated (snd (generate None rnd)) k.
Proof. unfold nth_generated. now rewrite Nat.iter_succ_r. Qed.

Lemma generateLoop_unfold (fuel : nat) (a : Z) (rnd : Random) (t : Table) :
  generateLoop fuel a rnd t =
  match getUrlByShortCode (nth_generated rnd 0) t with
  | None => (nth_generated rnd 0, a)
  | Some _ =>
      if a + 1 <? maxAttempts then
        match fuel with
        | S fuel' => generateLoop fuel' (a + 1) (snd (generate None rnd)) t
        | O => (nth_generated rnd 0, a + 1)
        end
      else (nth_generated rnd 0, a + 1)
  end.
Proof. destruct fuel; reflexivity. Qed.

(** The loop stops at the first code that is free. *)
Lemma generateLoop_found (t : Table) (j : nat) :
  forall (fuel : nat) (a : Z) (rnd : Random),
    a + Z.of_nat j < maxAttempts -> (j <= fuel)%nat ->
    (forall k, (k < j)%nat -> getUrlByShortCode (nth_generated rnd k) t <> None) ->
    getUrlByShortCode (nth_generated rnd j) t = None ->
    generateLoop fuel a rnd t = (nth_generated rnd j, a + Z.of_nat j).
Proof.
  induction j as [|j IH]; intros fuel a rnd B F C N; rewrite generateLoop_unfold;
    unfold maxAttempts in *.
  - rewrite N. f_equal. simpl. lia.
  - destruct (getUrlByShortCode (nth_generated rnd 0) t) eqn:G;
      [|destruct (C O ltac:(lia) G)].
    destruct (Z.ltb_spec (a + 1) 10); [|lia].
    destruct fuel as [|fuel]; [lia|].
    rewrite (IH fuel (a + 1) (snd (generate None rnd))).
    + rewrite nth_generated_succ. f_equal. lia.
    + lia.
    + lia.
    + intros k L. rewrite <- nth_generated_succ. apply C. lia.
    + now rewrite <- nth_generated_succ.
Qed.

(** The loop gives up when every code it is allowed to draw is taken. *)
Lemma generateLoop_exhausted (t : Table) (fuel : nat) :
  forall (a : Z) (rnd : Random),
    0 <= a < maxAttempts -> maxAttempts - 1 - a <= Z.of_nat fuel ->
    (forall k, a + Z.of_nat k < maxAttempts ->
               getUrlByShortCode (nth_generated rnd k) t <> None) ->
    generateLoop fuel a rnd t =
      (nth_generated rnd (Z.to_nat (maxAttempts - 1 - a)), maxAttempts).
Proof.
  induction fuel as [|fuel IH]; intros a rnd B F C; rewrite generateLoop_unfold;
    unfold maxAttempts in *;
    (destruct (getUrlByShortCode (nth_generated rnd 0) t) eqn:G;
       [|destruct (C O ltac:(simpl; lia) G)]).
  - destruct (Z.ltb_spec (a + 1) 10); [exfalso; lia|].
    replace (10 - 1 - a) with 0 by lia. f_equal. lia.
  - destruct (Z.ltb_spec (a + 1) 10).
    + rewrite IH.
      * rewrite <- nth_generated_succ. f_equal. f_equal. lia.
      * lia.
      * lia.
      * intros k L. rewrite <- nth_generated_succ. apply C. lia.
    + replace (10 - 1 - a) with 0 by lia. f_equal. lia.
Qed.

(** Either every one of the first [n] codes is taken, or there is a first
    free one. *)
Lemma first_free (t : Table) (rnd : Random) (n : nat) :
  (forall k, (k < n)%nat -> getUrlByShortCode (nth_generated rnd k) t <> None)
  \/ (exists j, (j < n)%nat
        /\ (forall k, (k < j)%nat ->
                      getUrlByShortCode (nth_generated rnd k) t <> None)
        /\ getUrlByShortCode (nth_generated rnd j) t = None).
Proof.
  induction n as [|n [A|(j & L & C & N)]].
  - left. intros k L. lia.
  - destruct (getUrlByShortCode (nth_generated rnd n) t) eqn:G.
    + left. intros k L. destruct (Nat.eq_dec k n) as [->|D].
      * congruence.
      * apply A. lia.
    + right. exists n. auto.
  - right. exists j. split; [lia | auto].
Qed.

(** The shorten operation for a valid URL and no custom code. *)
Lemma createShortUrl_generated (req : ShortenRequest) (now : Z) (rnd : Random)
  (t : Table) :
  isValidUrl (body_url req) = true -> Js.truthy (body_customCode req) = false ->
  createShortUrl req now rnd t =
  let (shortCode, attempts) := generateLoop (Z.to_nat maxAttempts) 0 rnd t in
  if attempts >=? maxAttempts then (t, unableToGenerate)
  else persist req now (normalizeUrl (Js.as_string (body_url req))) shortCode t.
Proof.
  intros V C. unfold createShortUrl. rewrite V, C.
  assert (T : Js.truthy (body_url req) = true).
  { unfold isValidUrl in V. destruct (Js.truthy (body_url req));
      [reflexivity | discriminate]. }
  rewrite T. reflexivity.
Qed.

Lemma persist_not_unable (req : ShortenRequest) (now : Z) (u c : string) (t : Table) :
  snd (persist req now u c t) <> unableToGenerate.
Proof.
  unfold persist. destruct (createUrl _ _ t) as [t' [r|e]]; simpl; discriminate.
Qed.

(** C2.  In the shorten operation for a valid URL without a custom code, the
    codes are drawn one after the other and the first one that is not in the
    table is the one the record is created with, as long as it is among the
    first 10; the answer is the HTTP 500 of the exhausted generator exactly when
    each of the first 10 generated codes is the code of an existing record, and
    then the table is left as it was.  No more than 10 codes are drawn, and 10
    passes are all the loop ever needs. *)
Theorem createShortUrl_retry_bound (req : ShortenRequest) (now : Z) (rnd : Random)
  (t : Table) :
  isValidUrl (body_url req) = true ->
  Js.truthy (body_customCode req) = false ->
  let taken k := getUrlByShortCode (nth_generated rnd k) t <> None in
  (snd (createShortUrl req now rnd t) = unableToGenerate
   <-> forall k, (k < 10)%nat -> taken k)
  /\ (snd (createShortUrl req now rnd t) = unableToGenerate ->
      fst (createShortUrl req now rnd t) = t)
  /\ unableToGenerate
     = json 500 (Failure "Unable to generate unique short code. Please try again")
  /\ (forall j, (j < 10)%nat -> (forall k, (k < j)%nat -> taken k) -> ~ taken j ->
        createShortUrl req now rnd t =
          persist req now (normalizeUrl (Js.as_string (body_url req)))
            (nth_generated rnd j) t)
  /\ (forall fuel, (9 <= fuel)%nat ->
        generateLoop fuel 0 rnd t = generateLoop 10 0 rnd t)
  /\ 0 <= snd (generateLoop 10 0 rnd t) <= 10.
Proof.
  intros V C taken. rewrite (createShortUrl_generated req now rnd t V C).
  change (Z.to_nat maxAttempts) with 10%nat.
  assert (Found : forall fuel j, (9 <= fuel)%nat -> (j < 10)%nat ->
            (forall k, (k < j)%nat -> taken k) -> ~ taken j ->
            generateLoop fuel 0 rnd t = (nth_generated rnd j, Z.of_nat j)).
  { intros fuel j F L A N.
    rewrite (generateLoop_found t j fuel 0 rnd); unfold maxAttempts;
      try lia; auto.
    unfold taken in N. destruct (getUrlByShortCode (nth_generated rnd j) t);
      [destruct N; discriminate | reflexivity]. }
  assert (Exhausted : forall fuel, (9 <= fuel)%nat ->
            (forall k, (k < 10)%nat -> taken k) ->
            generateLoop fuel 0 rnd t = (nth_generated rnd 9, 10)).
  { intros fuel F A.
    rewrite (generateLoop_exhausted t fuel 0 rnd); unfold maxAttempts;
      try lia; auto.
    intros k L. apply A. lia. }
  destruct (first_free t rnd 10) as [A|(j & L & A & N)].
  - rewrite (Exhausted 10%nat ltac:(lia) A). simpl.
    repeat split; auto; try lia.
    intros j L B N. destruct N. now apply A.
  - assert (N' : ~ taken j) by (unfold taken; congruence).
    rewrite (Found 10%nat j ltac:(lia) L A N').
    destruct (Z.geb_spec (Z.of_nat j) maxAttempts); [unfold maxAttempts in *; lia|].
    repeat split; try (simpl; lia).
    + intros E. destruct (persist_not_unable _ _ _ _ _ E).
    + intros B. destruct N'. now apply B.
    + intros E. destruct (persist_not_unable _ _ _ _ _ E).
    + intros i Li Ai Ni.
      destruct (Nat.lt_trichotomy i j) as [Lt|[->|Gt]].
      * destruct Ni. now apply A.
      * reflexivity.
      * destruct N'. now apply Ai.
    + intros fuel F. now rewrite (Found fuel j F L A N').
Qed.

End ShortenFacts.

Section CustomCodeFacts.

Context `{Platform}.

Import Types UrlValidator ShortCodeGenerator Database UrlController.

Lemma isValidUrl_truthy (v : Js.Value) : isValidUrl v = true -> Js.truthy v = true.
Proof.
  unfold isValidUrl. destruct (Js.truthy v); [reflexivity | discriminate].
Qed.

Lemma isValidCustomCode_true (v : Js.Value) :
  isValidCustomCode v = true ->
  exists code, v = Js.Str code /\ 3 <= Js.length code <= 20.
Proof.
  intros V. destruct v as [| |b|n|code|];
    try (unfold isValidCustomCode in V; simpl in V;
         rewrite ?orb_true_r in V; discriminate).
  exists code. split; [reflexivity|].
  rewrite isValidCustomCode_string in V.
  rewrite !andb_true_iff, !Z.leb_le in V. tauto.
Qed.

Lemma varchar_fits (n : nat) (s : string) :
  Js.length s <= Z.of_nat n -> varchar n s = Some s.
Proof.
  intros L. unfold varchar, Js.length in *.
  destruct (Nat.leb_spec (String.length s) n); [reflexivity | lia].
Qed.

Lemma persist_fst (req : ShortenRequest) (now : Z) (u c : string) (t : Table) :
  fst (persist req now u c t) =
  fst (createUrl now {| new_originalUrl := u; new_shortCode := c;
                        new_clickCount := 0 |} t).
Proof.
  unfold persist. destruct (createUrl _ _ t) as [t' [r|e]]; reflexivity.
Qed.

(** What a 201 answer of [persist] says about the table. *)
Lemma persist_created (req : ShortenRequest) (now : Z) (u c : string) (t t1 : Table)
  (data : ShortUrlData) :
  Js.length c <= 50 ->
  persist req now u c t = (t1, json 201 (Created data)) ->
  exists row,
    t1 = {| rows := rows t ++ [row]; urls_id_seq := urls_id_seq t + 1 |}
    /\ row_id row = urls_id_seq t
    /\ short_code row = c
    /\ click_count row = 0
    /\ created_at row = now
    /\ ~ In c (map short_code (rows t))
    /\ data_id data = row_id row
    /\ data_shortCode data = c
    /\ data_originalUrl data = original_url row
    /\ data_createdAt data = now.
Proof.
  intros L P. unfold persist in P.
  destruct (createUrl_cases now {| new_originalUrl := u; new_shortCode := c;
                                   new_clickCount := 0 |} t)
    as [[e E]|[[e E]|(row & E & I & T & K & _ & V & NC & _)]];
    rewrite E in P; try discriminate.
  simpl in V, K. rewrite (varchar_fits 50 c L) in V. injection V as V.
  injection P as <- <-. exists row. simpl.
  rewrite <- V. repeat split; auto. now rewrite V.
Qed.

Lemma getUrlByShortCode_appended (c : string) (l : list Row) (row : Row) (s : Z) :
  short_code row = c -> ~ In c (map short_code l) ->
  getUrlByShortCode c {| rows := l ++ [row]; urls_id_seq := s |}
  = Some (rowToUrl row).
Proof.
  intros Q N. unfold getUrlByShortCode. simpl.
  rewrite filter_app, (filter_has_code_absent c l N). simpl.
  apply has_code_true in Q. now rewrite Q.
Qed.

Lemma nth_generated_length (rnd : Random) (k : nat) :
  Js.length (nth_generated rnd k) = 6.
Proof.
  unfold nth_generated, Js.length, generate, nanoid. cbn [fst].
  now rewrite nanoid_chars_length.
Qed.

(** The ways [createShortUrl] ends: with an answer other than 201 and the
    table untouched, or in [persist] with a code of 3 to 20 characters. *)
Lemma createShortUrl_cases (req : ShortenRequest) (now : Z) (rnd : Random)
  (t : Table) :
  (exists r, createShortUrl req now rnd t = (t, r) /\ status_of r <> 201)
  \/ (exists c,
        createShortUrl req now rnd t =
          persist req now (normalizeUrl (Js.as_string (body_url req))) c t
        /\ 3 <= Js.length c <= 20
        /\ isValidUrl (body_url req) = true).
Proof.
  unfold createShortUrl.
  destruct (Js.truthy (body_url req)); cbn [negb];
    [|left; eexists; split; [reflexivity | discriminate]].
  destruct (isValidUrl (body_url req)); cbn [negb];
    [|left; eexists; split; [reflexivity | discriminate]].
  destruct (Js.truthy (body_customCode req)).
  - destruct (isValidCustomCode (body_customCode req)) eqn:V; cbn [negb];
      [|left; eexists; split; [reflexivity | discriminate]].
    destruct (getUrlByShortCode _ t);
      [left; eexists; split; [reflexivity | discriminate]|].
    right. eexists. split; [reflexivity|].
    destruct (isValidCustomCode_true _ V) as [code [-> L]]. auto.
  - change (Z.to_nat maxAttempts) with 10%nat.
    destruct (first_free t rnd 10) as [A|(j & L & A & N)].
    + rewrite (generateLoop_exhausted t 10 0 rnd); unfold maxAttempts; try lia.
      * left. eexists. split; [reflexivity | discriminate].
      * intros k B. apply A. lia.
    + rewrite (generateLoop_found t j 10 0 rnd); unfold maxAttempts; try lia; auto.
      destruct (Z.geb_spec (0 + Z.of_nat j) 10); [exfalso; lia|].
      right. eexists. split; [reflexivity|].
      rewrite nth_generated_length. split; [lia | reflexivity].
Qed.

(** C3.  In the shorten operation for a valid URL with a custom code: a custom
    code that fails validation ends the operation with HTTP 400 and the table
    untouched; a valid custom code that is the code of an existing record ends
    it with HTTP 409 and the table untouched, so the existing record stays as it
    is.  Hence after a successful shorten with a custom code, a second shorten
    with the same code is answered with 409. *)
Theorem createShortUrl_custom_code (req : ShortenRequest) (now : Z) (rnd : Random)
  (t : Table) :
  isValidUrl (body_url req) = true ->
  Js.truthy (body_customCode req) = true ->
  (isValidCustomCode (body_customCode req) = false ->
     createShortUrl req now rnd t = (t, invalidCustomCode))
  /\ (isValidCustomCode (body_customCode req) = true ->
      forall existing,
        getUrlByShortCode (Js.as_string (body_customCode req)) t = Some existing ->
        createShortUrl req now rnd t = (t, customCodeExists))
  /\ (forall t1 data,
        createShortUrl req now rnd t = (t1, json 201 (Created data)) ->
        forall req2 now2 rnd2,
          isValidUrl (body_url req2) = true ->
          body_customCode req2 = body_customCode req ->
          createShortUrl req2 now2 rnd2 t1 = (t1, customCodeExists))
  /\ invalidCustomCode
     = json 400 (Failure
         "Invalid custom code. Must be 3-20 alphanumeric characters and not a reserved word")
  /\ customCodeExists
     = json 409 (Failure "Custom code already exists. Please choose a different one").
Proof.
  intros V C.
  assert (Shape : forall (r : ShortenRequest) n g tb,
            isValidUrl (body_url r) = true -> Js.truthy (body_customCode r) = true ->
            createShortUrl r n g tb =
            if negb (isValidCustomCode (body_customCode r)) then (tb, invalidCustomCode)
            else match getUrlByShortCode (Js.as_string (body_customCode r)) tb with
                 | Some _ => (tb, customCodeExists)
                 | None => persist r n (normalizeUrl (Js.as_string (body_url r)))
                             (Js.as_string (body_customCode r)) tb
                 end).
  { intros r n g tb Vr Cr. unfold createShortUrl.
    rewrite (isValidUrl_truthy _ Vr), Vr, Cr. reflexivity. }
  split; [|split; [|split; [|split; reflexivity]]].
  - intros I. rewrite (Shape req now rnd t V C), I. reflexivity.
  - intros I existing G. rewrite (Shape req now rnd t V C), I, G. reflexivity.
  - intros t1 data E req2 now2 rnd2 V2 C2.
    rewrite (Shape req now rnd t V C) in E.
    destruct (isValidCustomCode (body_customCode req)) eqn:I; simpl in E;
      [|discriminate].
    destruct (getUrlByShortCode (Js.as_string (body_customCode req)) t);
      [discriminate|].
    destruct (isValidCustomCode_true _ I) as [code [Q L]].
    rewrite Q in E. simpl in E.
    assert (L50 : Js.length code <= 50) by lia.
    destruct (persist_created _ _ _ _ _ _ _ L50 E)
      as (row & -> & _ & S & _ & _ & N & _).
    rewrite (Shape req2 now2 rnd2 _ V2 ltac:(now rewrite C2)), C2, I, Q. simpl.
    now rewrite (getUrlByShortCode_appended code (rows t) row _ S N).
Qed.

End CustomCodeFacts.

(** ** Reachable tables *)

Section ReachableFacts.

Context `{Platform}.

Import Types UrlValidator ShortCodeGenerator Database UrlController.

Lemma createUrl_new_row (now : Z) (url : NewUrl) (t : Table) (r' : Row) :
  consistent t ->
  In r' (rows (fst (createUrl now url t))) -> ~ In r' (rows t) ->
  rows (fst (createUrl now url t)) = (rows t ++ [r'])%list
  /\ created_at r' = now
  /\ click_count r' = new_clickCount url
  /\ (forall r, In r (rows t) -> row_id r <> row_id r').
Proof.
  intros (_ & _ & S) M N.
  destruct (createUrl_cases now url t)
    as [[e E]|[[e E]|(row & E & Q & T & K & _)]]; rewrite E in *; simpl in *;
    try contradiction.
  apply in_app_or in M. destruct M as [M|[<-|[]]]; [contradiction|].
  repeat split; auto.
  intros r I. rewrite Forall_forall in S. specialize (S r I). lia.
Qed.

Lemma redirectToOriginalUrl_fst (c : string) (t : Table) :
  fst (redirectToOriginalUrl c t) = t
  \/ fst (redirectToOriginalUrl c t) = step (OpIncrementClickCount c) t.
Proof.
  unfold redirectToOriginalUrl, step. destruct (c =? "")%string; [now left|].
  destruct (getUrlByShortCode c t); [|now left].
  right. destruct (incrementClickCount c t) as [t' [r|e]]; reflexivity.
Qed.

Lemma deleteUrl_fst (c : string) (t : Table) :
  fst (UrlController.deleteUrl c t) = t
  \/ fst (UrlController.deleteUrl c t) = step (OpDeleteUrl c) t.
Proof.
  unfold UrlController.deleteUrl, step. destruct (c =? "")%string; [now left|].
  right. destruct (Database.deleteUrl c t) as [t' []]; reflexivity.
Qed.

(** C8.  Let [t] be a table that a sequence of calls of the store leads to from
    the freshly created table, and let further calls lead from [t] to a later
    table.  Then the short codes of the later table are pairwise distinct; a
    record of [t] that is still there (same [id]) has the short code, the
    original URL and the creation time it had in [t], and a click count that is
    not smaller; a record that [createUrl] adds gets the time of the insert as
    its creation time, the click count it was given and an [id] that no record
    has; and the shorten operation either leaves the rows as they are or adds
    one record, with the click count 0.  The three handlers that write to the
    store take a reachable table to a reachable table. *)
Theorem store_invariants (t : Table) (ops : list Op) :
  reachable t ->
  unique_short_codes (run ops t)
  /\ (forall r r',
        In r (rows t) -> In r' (rows (run ops t)) -> row_id r' = row_id r ->
        short_code r' = short_code r
        /\ original_url r' = original_url r
        /\ created_at r' = created_at r
        /\ click_count r <= click_count r')
  /\ (forall now url r',
        In r' (rows (step (OpCreateUrl now url) t)) -> ~ In r' (rows t) ->
        created_at r' = now
        /\ click_count r' = new_clickCount url
        /\ (forall r, In r (rows t) -> row_id r <> row_id r'))
  /\ (forall req now rnd,
        reachable (fst (createShortUrl req now rnd t))
        /\ (rows (fst (createShortUrl req now rnd t)) = rows t
            \/ exists r',
                 rows (fst (createShortUrl req now rnd t)) = (rows t ++ [r'])%list
                 /\ click_count r' = 0
                 /\ created_at r' = now))
  /\ (forall c,
        reachable (fst (redirectToOriginalUrl c t))
        /\ reachable (fst (UrlController.deleteUrl c t))).
Proof.
  intros R. pose proof (reachable_consistent t R) as C.
  split; [|split; [|split; [|split]]].
  - apply (run_consistent ops t C).
  - intros r r' M M' E.
    destruct (run_came_from ops t r' M') as [(r0 & M0 & I & Q & U & T & K)|S].
    + destruct C as (_ & D & _).
      assert (r0 = r) by
        (apply (NoDup_map_injective row_id (rows t)); auto; congruence).
      subst r0. auto.
    + destruct C as (_ & _ & S'). rewrite Forall_forall in S'.
      specialize (S' r M). lia.
  - intros now url r' M N. simpl in M.
    destruct (createUrl_new_row now url t r' C M N) as (_ & ? & ? & ?). auto.
  - intros req now rnd.
    destruct (createShortUrl_cases req now rnd t) as [(r & E & _)|(c & E & _)];
      rewrite E.
    + simpl. auto.
    + rewrite persist_fst.
      set (url := {| new_originalUrl := normalizeUrl (Js.as_string (body_url req));
                     new_shortCode := c; new_clickCount := 0 |}).
      split; [apply (reachable_step (OpCreateUrl now url) t R)|].
      destruct (createUrl_cases now url t)
        as [[e Q]|[[e Q]|(row & Q & _ & T & K & _)]]; rewrite Q; simpl; auto.
      right. exists row. auto.
  - intros c. split.
    + destruct (redirectToOriginalUrl_fst c t) as [E|E]; rewrite E;
        [assumption | now apply reachable_step].
    + destruct (deleteUrl_fst c t) as [E|E]; rewrite E;
        [assumption | now apply reachable_step].
Qed.

End ReachableFacts.

(** ** The redirect *)

Section RedirectFacts.

Context `{Platform}.

Import Types UrlValidator ShortCodeGenerator Database UrlController.

Lemma nonempty_eqb (c : string) : 3 <= Js.length c -> (c =? "")%string = false.
Proof. destruct c; [unfold Js.length; simpl; lia | reflexivity]. Qed.

(** A redirect of a code whose counter has room. *)
Lemma redirect_present (c : string) (t : Table) (u : Url) :
  c <> "" -> unique_short_codes t ->
  getUrlByShortCode c t = Some u -> clickCount u < INT4_MAX ->
  redirectToOriginalUrl c t =
    ({| rows := bumped c (rows t); urls_id_seq := urls_id_seq t |},
     redirect 301 (originalUrl u))
  /\ getUrlByShortCode c {| rows := bumped c (rows t); urls_id_seq := urls_id_seq t |}
     = Some (with_clicks u (clickCount u + 1)).
Proof.
  intros N D G L. apply string_eqb_false_iff in N.
  destruct (incrementClickCount_present c t u D G L) as [E [G' _]].
  unfold redirectToOriginalUrl. rewrite N, G, E. auto.
Qed.



End RedirectFacts.

(** ** The list operation *)

Section ListFacts.

Import Types Database UrlController.

Lemma insert_desc_perm (r : Row) (l : list Row) :
  Permutation (insert_desc r l) (r :: l).
Proof.
  induction l as [|x l IH]; simpl; [reflexivity|].
  destruct (created_at x >? created_at r); [|reflexivity].
  rewrite IH. apply perm_swap.
Qed.

Lemma order_by_created_at_desc_perm (l : list Row) :
  Permutation (order_by_created_at_desc l) l.
Proof.
  induction l as [|r l IH]; simpl; [reflexivity|].
  rewrite insert_desc_perm. now constructor.
Qed.

Lemma insert_desc_sorted (r : Row) (l : list Row) :
  StronglySorted newer_or_same l -> StronglySorted newer_or_same (insert_desc r l).
Proof.
  unfold newer_or_same.
  induction l as [|x l IH]; simpl; intros S.
  - repeat constructor.
  - inversion S as [|? ? S' F]; subst.
    destruct (Z.gtb_spec (created_at x) (created_at r)).
    + constructor; [auto|].
      apply Forall_forall. intros y I.
      apply (Permutation_in _ (insert_desc_perm r l)) in I.
      rewrite Forall_forall in F. destruct I as [<-|I]; [lia | auto].
    + constructor; [assumption|]. constructor; [lia|].
      eapply Forall_impl; [|exact F]. simpl. intros; lia.
Qed.

Lemma order_by_created_at_desc_sorted (l : list Row) :
  StronglySorted newer_or_same (order_by_created_at_desc l).
Proof.
  induction l as [|r l IH]; simpl; [constructor | now apply insert_desc_sorted].
Qed.

Lemma StronglySorted_skipn {A : Type} (R : A -> A -> Prop) (n : nat) (l : list A) :
  StronglySorted R l -> StronglySorted R (skipn n l).
Proof.
  revert l; induction n as [|n IH]; intros [|x l] S; simpl; auto.
  inversion S; auto.
Qed.

Lemma StronglySorted_firstn {A : Type} (R : A -> A -> Prop) (n : nat) (l : list A) :
  StronglySorted R l -> StronglySorted R (firstn n l).
Proof.
  revert l; induction n as [|n IH]; intros [|x l] S; simpl; try constructor.
  - inversion S; auto.
  - inversion S as [|? ? _ F]; subst. apply Forall_forall. intros y I.
    rewrite Forall_forall in F. apply F.
    rewrite <- (firstn_skipn n l). apply in_or_app. now left.
Qed.

Lemma StronglySorted_map {A B : Type} (R : B -> B -> Prop) (f : A -> B) (l : list A) :
  StronglySorted (fun a b => R (f a) (f b)) l -> StronglySorted R (map f l).
Proof.
  induction 1 as [|x l S IH F]; simpl; constructor; auto.
  apply Forall_forall. intros y I. apply in_map_iff in I.
  destruct I as [z [<- I]]. rewrite Forall_forall in F. auto.
Qed.

Lemma Math_ceil_div_bounds (a b : Z) :
  0 <= a -> 1 <= b ->
  (Math_ceil_div a b - 1) * b < a <= Math_ceil_div a b * b.
Proof.
  intros A B. unfold Math_ceil_div.
  pose proof (Z.div_mod a b ltac:(lia)) as D.
  pose proof (Z.mod_pos_bound a b ltac:(lia)) as M.
  destruct (Z.eqb_spec (a mod b) 0); nia.
Qed.

Lemma to_number_safe (z : Z) :
  Z.abs z <= Js.MAX_SAFE_INTEGER -> Js.to_number z = z.
Proof.
  intros S. unfold Js.to_number.
  destruct (Z.leb_spec (Z.abs z) Js.MAX_SAFE_INTEGER); [reflexivity | lia].
Qed.

Lemma to_number_negative (z : Z) : z < 0 -> Js.to_number z < 0.
Proof.
  intros N. unfold Js.to_number.
  destruct (Z.leb_spec (Z.abs z) Js.MAX_SAFE_INTEGER) as [|A]; [exact N|].
  unfold Js.MAX_SAFE_INTEGER in A.
  set (a := Z.abs z) in *.
  set (e := Z.log2 a - 52).
  assert (A0 : 0 < a) by lia.
  pose proof (Z.log2_spec a A0) as [Lo _].
  assert (L53 : 53 <= Z.log2 a).
  { apply Z.log2_le_pow2; [lia|]. simpl. lia. }
  assert (E0 : 0 <= e) by (unfold e; lia).
  assert (P : 0 < 2 ^ e) by (apply Z.pow_pos_nonneg; lia).
  assert (Q : 2 ^ e <= a).
  { eapply Z.le_trans; [|exact Lo]. apply Z.pow_le_mono_r; unfold e; lia. }
  assert (D : 1 <= a / 2 ^ e).
  { apply Z.div_le_lower_bound; lia. }
  rewrite (Z.sgn_neg z N).
  destruct ((2 ^ (e - 1) <? a mod 2 ^ e)
            || ((a mod 2 ^ e =? 2 ^ (e - 1)) && Z.odd (a / 2 ^ e))); nia.
Qed.

Lemma bigint_param_in_range (n : Z) :
  INT8_MIN <= n <= INT8_MAX -> bigint_param n = None.
Proof.
  unfold bigint_param, INT8_MIN, INT8_MAX. intros R.
  destruct (Z.leb_spec n (- 10 ^ 21)); [lia|].
  destruct (Z.leb_spec (10 ^ 21) n); [lia|].
  destruct (Z.ltb_spec n (-9223372036854775808)); [lia|].
  destruct (Z.ltb_spec 9223372036854775807 n); [lia | reflexivity].
Qed.

Lemma getAllUrls_in_range (scan : Scan) (limit offset : Z) (t : Table) :
  0 <= limit <= INT8_MAX -> 0 <= offset <= INT8_MAX ->
  Database.getAllUrls scan (Some limit) (Some offset) t
  = Return (map rowToUrl
              (firstn (Z.to_nat limit)
                 (skipn (Z.to_nat offset)
                    (order_by_created_at_desc (scan_rows scan (rows t))))),
            Z.of_nat (List.length (rows t))).
Proof.
  intros L O. unfold Database.getAllUrls.
  rewrite !bigint_param_in_range by (unfold INT8_MIN, INT8_MAX in *; lia).
  destruct (Z.ltb_spec offset 0); [lia|].
  destruct (Z.ltb_spec limit 0); [lia | reflexivity].
Qed.

Lemma scanned_perm (scan : Scan) (l : list Row) :
  Permutation (order_by_created_at_desc (scan_rows scan l)) l.
Proof.
  rewrite order_by_created_at_desc_perm. apply scan_perm.
Qed.

(** C10.  For [page >= 1] and [limit >= 1] with [page * limit] at most
    [Number.MAX_SAFE_INTEGER], the list operation asks the store for [limit]
    rows from the offset [(page - 1) * limit] on; the records it answers with
    are that part of the table in the newest-first order of this query, so
    they are at most [limit] and ordered newest first; and the pagination
    fields are [total], the number of all rows, [totalPages], the least number
    of pages of [limit] rows that hold [total] rows, [hasNext], which is
    [page * limit < total], and [hasPrev], which is [page > 1]. *)
Theorem getAllUrls_pagination (scan : Scan) (page limit : Z)
  (protocol host : string) (t : Table) :
  1 <= page -> 1 <= limit -> page * limit <= Js.MAX_SAFE_INTEGER ->
  exists (data : list UrlWithShortUrl) (totalPages : Z),
    UrlController.getAllUrls scan (Some page) (Some limit) protocol host t
    = json 200 (UrlList data
                  {| UrlController.page := page;
                     UrlController.limit := limit;
                     total := Z.of_nat (List.length (rows t));
                     UrlController.totalPages := totalPages;
                     hasNext := page * limit <? Z.of_nat (List.length (rows t));
                     hasPrev := page >? 1 |}
                  {| found_total := Z.of_nat (List.length (rows t));
                     showing_page := page |})
    /\ Database.getAllUrls scan (Some limit) (Some ((page - 1) * limit)) t
       = Return (map url_record data, Z.of_nat (List.length (rows t)))
    /\ map url_record data
       = map rowToUrl
           (firstn (Z.to_nat limit)
              (skipn (Z.to_nat ((page - 1) * limit))
                 (order_by_created_at_desc (scan_rows scan (rows t)))))
    /\ Permutation (order_by_created_at_desc (scan_rows scan (rows t))) (rows t)
    /\ StronglySorted newer_or_same
         (order_by_created_at_desc (scan_rows scan (rows t)))
    /\ StronglySorted
         (fun a b => createdAt (url_record b) <= createdAt (url_record a)) data
    /\ Z.of_nat (List.length data) <= limit
    /\ (totalPages - 1) * limit < Z.of_nat (List.length (rows t)) <= totalPages * limit
    /\ ((page * limit <? Z.of_nat (List.length (rows t))) = true
        <-> page * limit < Z.of_nat (List.length (rows t)))
    /\ ((page >? 1) = true <-> page > 1).
Proof.
  intros P L B.
  set (sorted := order_by_created_at_desc (scan_rows scan (rows t))).
  set (part := firstn (Z.to_nat limit) (skipn (Z.to_nat ((page - 1) * limit)) sorted)).
  assert (B1 : 0 <= (page - 1) * limit <= page * limit) by nia.
  assert (B2 : limit <= page * limit) by nia.
  assert (B3 : page <= page * limit) by nia.
  assert (G : Database.getAllUrls scan (Some limit) (Some ((page - 1) * limit)) t
              = Return (map rowToUrl part, Z.of_nat (List.length (rows t)))).
  { apply getAllUrls_in_range; unfold Js.MAX_SAFE_INTEGER, INT8_MAX in *; lia. }
  assert (Sp : StronglySorted newer_or_same part).
  { apply StronglySorted_firstn, StronglySorted_skipn,
      order_by_created_at_desc_sorted. }
  exists (map (fun url => {| url_record := url;
                             shortUrl := baseUrl protocol host ++ "/" ++ shortCode url |})
            (map rowToUrl part)),
         (Math_ceil_div (Z.of_nat (List.length (rows t))) limit).
  assert (M : forall l : list Url,
            map url_record
              (map (fun url => {| url_record := url;
                                  shortUrl := baseUrl protocol host ++ "/"
                                              ++ shortCode url |}) l) = l).
  { intros l. rewrite map_map. simpl. apply map_id. }
  rewrite M.
  split.
  { unfold UrlController.getAllUrls, or_default, Js.sub, Js.mul.
    destruct (Z.eqb_spec page 0); [lia|].
    destruct (Z.eqb_spec limit 0); [lia|].
    rewrite (to_number_safe (page - 1)) by lia.
    rewrite (to_number_safe ((page - 1) * limit)) by lia.
    rewrite (to_number_safe (page * limit)) by lia.
    rewrite G. reflexivity. }
  split; [exact G|].
  split; [reflexivity|].
  split; [apply scanned_perm|].
  split; [apply order_by_created_at_desc_sorted|].
  split.
  { apply StronglySorted_map with
      (R := fun a b : UrlWithShortUrl =>
              createdAt (url_record b) <= createdAt (url_record a)).
    apply StronglySorted_map with
      (R := fun a b : Url => createdAt b <= createdAt a)
      (f := rowToUrl). exact Sp. }
  split.
  { rewrite !length_map. unfold part.
    pose proof (firstn_le_length (Z.to_nat limit)
                  (skipn (Z.to_nat ((page - 1) * limit)) sorted)). lia. }
  split; [apply Math_ceil_div_bounds; lia|].
  split; [apply Z.ltb_lt | rewrite Z.gtb_ltb, Z.ltb_lt; lia].
Qed.

(** C10, as stated, fails for a large page: the request
    [?page=10000000000000000000&limit=1] has [page >= 1] and [limit >= 1] and
    gets no list.  The offset that the handler computes is no [bigint], the
    query is rejected, and the answer is the HTTP 500 of the [catch] block. *)
Lemma getAllUrls_beyond_bigint :
  1 <= 10000000000000000000 /\ 1 <= 1
  /\ UrlController.getAllUrls Examples.scan_as_stored
       (Some 10000000000000000000) (Some 1) "http" "sho.rt" Examples.freshTable
     = json 500 (Failure "Internal server error")
  /\ ~ exists data pagination message,
         UrlController.getAllUrls Examples.scan_as_stored
           (Some 10000000000000000000) (Some 1) "http" "sho.rt" Examples.freshTable
         = json 200 (UrlList data pagination message).
Proof.
  assert (E : UrlController.getAllUrls Examples.scan_as_stored
                (Some 10000000000000000000) (Some 1) "http" "sho.rt"
                Examples.freshTable
              = json 500 (Failure "Internal server error")) by (vm_compute; reflexivity).
  split; [lia|]. split; [lia|]. split; [exact E|].
  intros (data & pagination & message & Q). rewrite E in Q. discriminate Q.
Qed.

End ListFacts.

(** ** The statements at concrete inputs *)

Section Instances.

Import Types UrlValidator ShortCodeGenerator Database UrlController.
Import SimplePlatform Examples.

Lemma isValidUrl_iff_witness :
  @isURL_requires_protocol PlainUrls.platform
  /\ @URL_keeps_protocol PlainUrls.platform
  /\ isValidUrl (H := PlainUrls.platform) (Js.Str "HTTPS://Example.com/a") = true
  /\ (exists tail,
        URL_new (Platform := PlainUrls.platform) "HTTPS://Example.com/a"
        = Some {| hostname := "example.com"; toString := "https://" ++ tail |})
  /\ isValidUrl (H := PlainUrls.platform) Js.Null = false
  /\ isValidUrl (H := PlainUrls.platform) (Js.Str "example.com") = false.
Proof.
  destruct (isValidUrl_iff (H := PlainUrls.platform)) as (I & S & N & E & U).
  split; [exact plain_isURL_requires_protocol|].
  split; [exact plain_URL_keeps_protocol|].
  assert (V : isValidUrl (H := PlainUrls.platform)
                (Js.Str "HTTPS://Example.com/a") = true).
  { apply I.
    exists "HTTPS://Example.com/a",
           {| hostname := "example.com"; toString := "https://example.com/a" |}.
    repeat split; try reflexivity; try discriminate;
      intros rest Q; discriminate Q. }
  split; [exact V|]. split; [|split].
  - destruct (S plain_isURL_requires_protocol plain_URL_keeps_protocol _ V)
      as (s & u & tail & Q & _).
    exists "example.com/a". reflexivity.
  - apply N. reflexivity.
  - apply U. reflexivity.
Defined.

Lemma normalizeUrl_spec_witness :
  normalizeUrl "https://example.com/a//" = "https://example.com/a/"
  /\ normalizeUrl "https://example.com" = "https://example.com"
  /\ normalizeUrl "not a url" = "not a url".
Proof.
  pose proof (normalizeUrl_spec (H := platform) "https://example.com/a//") as A.
  pose proof (normalizeUrl_spec (H := platform) "https://example.com") as B.
  pose proof (normalizeUrl_spec (H := platform) "not a url") as C.
  change (URL_new "https://example.com/a//")
    with (Some {| hostname := "example.com";
                  toString := "https://example.com/a//" |}) in A.
  change (URL_new "https://example.com")
    with (Some {| hostname := "example.com";
                  toString := "https://example.com/" |}) in B.
  change (URL_new "not a url") with (@None URL) in C.
  destruct A as (_ & A & _). destruct B as (B & _).
  split; [apply (A "https://example.com/a"); reflexivity|].
  split; [apply (B "https://example.com"); reflexivity | exact C].
Defined.

Lemma isValidCustomCode_iff_witness :
  isValidCustomCode (Js.Str "apptest") = true.
Proof.
  destruct isValidCustomCode_iff as (I & _).
  apply (I "apptest"). split; [unfold Js.length; simpl; lia|].
  split; [split; [discriminate|]|].
  - repeat (constructor; [apply alnum_ALLOWED_CHARS; reflexivity|]). constructor.
  - simpl. intuition discriminate.
Defined.

Lemma generate_spec_witness :
  String.length (fst (generate (Some 8%nat) countingSource)) = 8%nat
  /\ fst (generate None countingSource) = "ABCDEF".
Proof.
  destruct (generate_spec 8 countingSource) as (L & _ & _ & _ & _ & D).
  split; [exact L|]. rewrite (proj2 (proj2 (proj2 (proj2 (proj2
    (generate_spec 0 countingSource)))))). reflexivity.
Defined.


Lemma createShortUrl_retry_bound_witness :
  isValidUrl (body_url plainRequest) = true
  /\ Js.truthy (body_customCode plainRequest) = false
  /\ createShortUrl plainRequest 2000 countingSource (takenTable 10)
     = (takenTable 10, unableToGenerate)
  /\ createShortUrl plainRequest 2000 countingSource (takenTable 2)
     = persist plainRequest 2000 "https://example.com" "MNOPQR" (takenTable 2)
  /\ status_of (snd (createShortUrl plainRequest 2000 countingSource (takenTable 2)))
     = 201.
Proof.
  assert (V : isValidUrl (body_url plainRequest) = true) by reflexivity.
  assert (C : Js.truthy (body_customCode plainRequest) = false) by reflexivity.
  split; [exact V|]. split; [exact C|].
  destruct (createShortUrl_retry_bound plainRequest 2000 countingSource
              (takenTable 10) V C) as (I & U & _).
  destruct (createShortUrl_retry_bound plainRequest 2000 countingSource
              (takenTable 2) V C) as (_ & _ & _ & F & _).
  assert (A : forall k, (k < 10)%nat ->
            getUrlByShortCode (nth_generated countingSource k) (takenTable 10)
            <> None).
  { intros k L.
    do 10 (destruct k as [|k]; [vm_compute; discriminate|]). lia. }
  split.
  - rewrite (surjective_pairing (createShortUrl _ _ _ (takenTable 10))).
    rewrite (U (proj2 I A)), (proj2 I A). reflexivity.
  - assert (E : createShortUrl plainRequest 2000 countingSource (takenTable 2)
                = persist plainRequest 2000 "https://example.com" "MNOPQR"
                    (takenTable 2)).
    { apply (F 2%nat).
      - lia.
      - intros k L. do 2 (destruct k as [|k]; [vm_compute; discriminate|]). lia.
      - intros N. apply N. reflexivity. }
    split; [exact E|]. rewrite E. reflexivity.
Defined.

Lemma createShortUrl_custom_code_witness :
  isValidUrl (body_url githubRequest) = true
  /\ Js.truthy (body_customCode githubRequest) = true
  /\ status_of (snd (createShortUrl githubRequest 1000 countingSource initDatabase))
     = 201
  /\ createShortUrl githubRequest 1001 countingSource
       (fst (createShortUrl githubRequest 1000 countingSource initDatabase))
     = (fst (createShortUrl githubRequest 1000 countingSource initDatabase),
        customCodeExists).
Proof.
  assert (V : isValidUrl (body_url githubRequest) = true) by reflexivity.
  assert (C : Js.truthy (body_customCode githubRequest) = true) by reflexivity.
  split; [exact V|]. split; [exact C|]. split; [reflexivity|].
  destruct (createShortUrl_custom_code githubRequest 1000 countingSource
              initDatabase V C) as (_ & _ & S & _).
  eapply S; [reflexivity | exact V | reflexivity].
Defined.

Lemma store_invariants_witness :
  reachable freshTable
  /\ unique_short_codes
       (run [OpIncrementClickCount "abc123"; OpCreateUrl 2000 freshLink;
             OpDeleteUrl "abc123"; OpCreateUrl 3000 busyLink] freshTable)
  /\ reachable (fst (createShortUrl plainRequest 2000 countingSource freshTable)).
Proof.
  assert (R : reachable freshTable) by (eexists; reflexivity).
  split; [exact R|].
  destruct (store_invariants (H := platform) freshTable
              [OpIncrementClickCount "abc123"; OpCreateUrl 2000 freshLink;
               OpDeleteUrl "abc123"; OpCreateUrl 3000 busyLink] R)
    as (U & _ & _ & S & _).
  split; [exact U|]. apply S.
Defined.


Lemma getAllUrls_pagination_witness :
  1 <= 2 /\ 1 <= 3 /\ 2 * 3 <= Js.MAX_SAFE_INTEGER
  /\ exists data totalPages,
       UrlController.getAllUrls scan_backwards (Some 2) (Some 3) "http" "sho.rt"
         (takenTable 7)
       = json 200 (UrlList data
                     {| page := 2; limit := 3; total := 7;
                        totalPages := totalPages;
                        hasNext := true; hasPrev := true |}
                     {| found_total := 7; showing_page := 2 |})
       /\ Z.of_nat (List.length data) <= 3
       /\ (totalPages - 1) * 3 < 7 <= totalPages * 3.
Proof.
  split; [lia|]. split; [lia|]. split; [vm_compute; discriminate|].
  destruct (getAllUrls_pagination scan_backwards 2 3 "http" "sho.rt" (takenTable 7)
              ltac:(lia) ltac:(lia) ltac:(vm_compute; discriminate))
    as (data & totalPages & E & _ & _ & _ & _ & _ & L & T & _).
  exists data, totalPages. split; [exact E|]. split; [exact L | exact T].
Defined.

End Instances.

(** * Further properties of the store *)

Section StoreFacts.

Import Types Database.

Lemma getUrlById_appended (i : Z) (l : list Row) (row : Row) (s : Z) :
  row_id row = i -> ~ In i (map row_id l) ->
  getUrlById i {| rows := l ++ [row]; urls_id_seq := s |} = Some (rowToUrl row).
Proof.
  intros Q N. unfold getUrlById. simpl. rewrite filter_app.
  assert (F : filter (fun r => row_id r =? i) l = []).
  { apply filter_nil_iff. intros r I. apply Z.eqb_neq. intros E. apply N.
    rewrite <- E. now apply in_map. }
  rewrite F. simpl. rewrite Q, Z.eqb_refl. reflexivity.
Qed.

(** X2.  A record that [createUrl] returns can be read back: the lookup by its
    short code and the lookup by its id both give exactly the returned record.
    The record carries the insert time, the click count it was given and the
    sequence value as id; a code of at most 50 and a URL of at most 2048
    characters are stored as given. *)
Theorem createUrl_lookup (now : Z) (url : NewUrl) (t t' : Table) (u : Url) :
  createUrl now url t = (t', Return u) ->
  getUrlByShortCode (shortCode u) t' = Some u
  /\ getUrlById (id u) t' = Some u
  /\ id u = urls_id_seq t
  /\ createdAt u = now
  /\ clickCount u = new_clickCount url
  /\ (Js.length (new_shortCode url) <= 50 -> shortCode u = new_shortCode url)
  /\ (Js.length (new_originalUrl url) <= 2048 ->
      originalUrl u = new_originalUrl url).
Proof.
  intros E.
  destruct (createUrl_cases now url t)
    as [[e Q]|[[e Q]|(row & Q & I & T & K & VU & VC & NC & NI)]];
    rewrite Q in E; try discriminate.
  injection E as <- <-.
  split; [now apply getUrlByShortCode_appended|].
  split; [now apply getUrlById_appended|].
  simpl. repeat split; auto.
  - intros L. rewrite (varchar_fits 50 _ L) in VC. congruence.
  - intros L. rewrite (varchar_fits 2048 _ L) in VU. congruence.
Qed.

(** X3.  A rejected [createUrl] stores nothing: the rows are the rows there
    were.  The insert is rejected whenever a record with the code exists, and
    the existing record stays as it is. *)
Theorem createUrl_rejected (now : Z) (url : NewUrl) (t : Table) :
  (forall e, snd (createUrl now url t) = Throw e ->
             rows (fst (createUrl now url t)) = rows t)
  /\ (forall existing,
        Js.length (new_shortCode url) <= 50 ->
        getUrlByShortCode (new_shortCode url) t = Some existing ->
        (exists e, snd (createUrl now url t) = Throw e)
        /\ getUrlByShortCode (new_shortCode url) (fst (createUrl now url t))
           = Some existing).
Proof.
  destruct (createUrl_cases now url t)
    as [[e Q]|[[e Q]|(row & Q & I & T & K & VU & VC & NC & NI)]]; rewrite Q; simpl.
  - split; [reflexivity|]. intros existing L G. split; [eauto | exact G].
  - split; [reflexivity|]. intros existing L G. split; [eauto | exact G].
  - split; [discriminate|]. intros existing L G. exfalso.
    rewrite (varchar_fits 50 _ L) in VC. injection VC as VC.
    apply NC. rewrite <- VC.
    destruct (getUrlByShortCode_Some _ _ _ G) as (r & M & S & _).
    rewrite <- S. now apply in_map.
Qed.

Lemma filter_negb_has_code_other (c d : string) (l : list Row) :
  d <> c ->
  filter (has_code d) (filter (fun r => negb (has_code c r)) l)
  = filter (has_code d) l.
Proof.
  intros N. induction l as [|a l IH]; simpl; [reflexivity|].
  destruct (has_code c a) eqn:C; simpl.
  - apply has_code_true in C.
    assert (F : has_code d a = false) by (apply has_code_false; congruence).
    now rewrite F.
  - destruct (has_code d a); now rewrite IH.
Qed.

Lemma filter_negb_has_code_same (c : string) (l : list Row) :
  filter (has_code c) (filter (fun r => negb (has_code c r)) l) = [].
Proof.
  apply filter_nil_iff. intros r I. apply filter_In in I.
  destruct I as [_ I]. now apply negb_true_iff in I.
Qed.


Lemma filter_all {A : Type} (p : A -> bool) (l : list A) :
  (forall x, In x l -> p x = true) -> filter p l = l.
Proof.
  induction l as [|a l IH]; simpl; intros F; [reflexivity|].
  rewrite (F a (or_introl eq_refl)), IH; auto.
Qed.

(** The store side of a delete, shared by the two statements on it. *)
Lemma deleteUrl_effect (c : string) (t : Table) :
  (snd (Database.deleteUrl c t) = true <-> getUrlByShortCode c t <> None)
  /\ getUrlByShortCode c (fst (Database.deleteUrl c t)) = None
  /\ (forall d, d <> c ->
        getUrlByShortCode d (fst (Database.deleteUrl c t)) = getUrlByShortCode d t)
  /\ (snd (Database.deleteUrl c t) = false -> fst (Database.deleteUrl c t) = t).
Proof.
  unfold Database.deleteUrl, getUrlByShortCode. cbn [fst snd rows].
  split; [|split; [|split]].
  - destruct (filter (has_code c) (rows t)); simpl; split; intros X;
      try discriminate; try reflexivity; now destruct X.
  - now rewrite filter_negb_has_code_same.
  - intros d N. now rewrite filter_negb_has_code_other.
  - intros F.
    assert (E : filter (has_code c) (rows t) = []).
    { destruct (filter (has_code c) (rows t)); [reflexivity | discriminate]. }
    rewrite filter_nil_iff in E.
    rewrite filter_all by (intros r I; now rewrite (E r I)).
    apply table_eta.
Qed.


Lemma filter_key_unique {A : Type} (g : A -> Z) (l : list A) (r : A) :
  NoDup (map g l) -> In r l -> filter (fun x => g x =? g r) l = [r].
Proof.
  induction l as [|a l IH]; simpl; intros D I; [contradiction|].
  inversion D as [|? ? N D']; subst.
  destruct I as [->|I].
  - rewrite Z.eqb_refl. f_equal. apply filter_nil_iff. intros x M.
    apply Z.eqb_neq. intros E. apply N. rewrite <- E. now apply in_map.
  - destruct (Z.eqb_spec (g a) (g r)) as [E|E]; [|auto].
    exfalso. apply N. rewrite E. now apply in_map.
Qed.

(** X6.  In a table that meets its key constraints the two lookups agree: the
    record found under a short code is the record found under its id, and the
    record found under an id is the record found under its short code. *)
Theorem lookups_agree (t : Table) (u : Url) :
  consistent t ->
  (forall c, getUrlByShortCode c t = Some u -> getUrlById (id u) t = Some u)
  /\ (forall i, getUrlById i t = Some u -> getUrlByShortCode (shortCode u) t = Some u).
Proof.
  intros (C & I & _). split.
  - intros c G. destruct (getUrlByShortCode_Some c t u G) as (r & M & _ & ->).
    unfold getUrlById. simpl.
    now rewrite (filter_key_unique row_id (rows t) r I M).
  - intros i G. unfold getUrlById in G.
    destruct (filter (fun r => row_id r =? i) (rows t)) as [|r l] eqn:F;
      [discriminate|].
    injection G as <-.
    assert (M : In r (rows t)).
    { assert (X : In r (filter (fun r => row_id r =? i) (rows t)))
        by (rewrite F; now left).
      apply filter_In in X. tauto. }
    destruct (filter_has_code_unique (short_code r) (rows t) C)
      as [E|(r' & E & M' & Q)].
    + rewrite filter_nil_iff in E. specialize (E r M).
      apply has_code_false in E. congruence.
    + unfold getUrlByShortCode. simpl. rewrite E.
      assert (X : In r (filter (has_code (short_code r)) (rows t)))
        by (apply filter_In; split; [assumption | now apply has_code_true]).
      rewrite E in X. destruct X as [->|[]]. reflexivity.
Qed.

Lemma run_seq_mono (ops : list Op) (t : Table) :
  urls_id_seq t <= urls_id_seq (run ops t).
Proof.
  revert t; induction ops as [|op ops IH]; intros t; [simpl; lia|].
  rewrite run_cons. pose proof (step_seq_mono op t). specialize (IH (step op t)). lia.
Qed.

(** X4.  Ids are never used twice: a record that [createUrl] adds, after any
    further calls of the store, gets an id that is greater than the id of every
    record the table held before, also of the records deleted since. *)
Theorem ids_never_reused (t : Table) (ops : list Op) (now : Z) (url : NewUrl)
  (r r' : Row) :
  reachable t ->
  In r (rows t) ->
  In r' (rows (step (OpCreateUrl now url) (run ops t))) ->
  ~ In r' (rows (run ops t)) ->
  row_id r < row_id r'.
Proof.
  intros R M M' N.
  destruct (reachable_consistent t R) as (_ & _ & S).
  rewrite Forall_forall in S. specialize (S r M).
  pose proof (run_seq_mono ops t) as L.
  simpl in M'.
  destruct (createUrl_cases now url (run ops t))
    as [[e Q]|[[e Q]|(row & Q & I & _)]]; rewrite Q in M'; simpl in M';
    try contradiction.
  apply in_app_or in M'. destruct M' as [M'|[<-|[]]]; [contradiction|]. lia.
Qed.

End StoreFacts.

Section ColumnFacts.

Import Types Database.

Lemma substring_length_le (n m : nat) (s : string) :
  (String.length (substring n m s) <= m)%nat.
Proof.
  revert n m; induction s as [|c s IH]; intros [|n] [|m]; simpl; try lia.
  - specialize (IH O m). lia.
  - apply (IH n O).
  - apply (IH n (S m)).
Qed.

Lemma varchar_length (n : nat) (s s' : string) :
  varchar n s = Some s' -> Js.length s' <= Z.of_nat n.
Proof.
  unfold varchar, Js.length.
  destruct (Nat.leb_spec (String.length s) n).
  - intros E. injection E as <-. lia.
  - destruct (Js.all_chars _ _); [|discriminate].
    intros E. injection E as <-. pose proof (substring_length_le 0 n s). lia.
Qed.

Lemma createUrl_fits (now : Z) (url : NewUrl) (t : Table) :
  fits t -> fits (fst (createUrl now url t)).
Proof.
  intros [F S]. unfold createUrl, fits, row_fits, INT4_MAX, INT4_MIN in *.
  destruct (Z.gtb_spec (urls_id_seq t) 2147483647); [split; assumption|].
  destruct (varchar 2048 (new_originalUrl url)) as [original|] eqn:VU;
    [|split; simpl; [assumption | lia]].
  destruct (varchar 50 (new_shortCode url)) as [code|] eqn:VC;
    [|split; simpl; [assumption | lia]].
  destruct (in_int4 (new_clickCount url)) eqn:K; simpl;
    [|split; simpl; [assumption | lia]].
  destruct (existsb _ (rows t) || existsb _ (rows t)); simpl;
    [split; simpl; [assumption | lia]|].
  split; simpl; [|lia].
  apply Forall_app. split; [assumption|]. constructor; [|constructor].
  cbn [row_id original_url short_code click_count].
  apply varchar_length in VU, VC.
  unfold in_int4, INT4_MAX, INT4_MIN in K.
  apply andb_true_iff in K. rewrite !Z.leb_le in K.
  simpl in VU, VC. lia.
Qed.

Lemma step_fits (op : Op) (t : Table) : fits t -> fits (step op t).
Proof.
  intros [F S]. destruct op as [now url|c|c|]; simpl.
  - apply createUrl_fits. now split.
  - unfold incrementClickCount.
    destruct (existsb _ (rows t)) eqn:X; [now split|].
    assert (B : Forall row_fits (bumped c (rows t))).
    { apply Forall_forall. intros r M. unfold bumped in M.
      apply in_map_iff in M. destruct M as [r0 [Q M]].
      rewrite Forall_forall in F. pose proof (F r0 M) as (I & U & C & K).
      destruct (has_code c r0) eqn:Hc; subst r; [|repeat split; tauto].
      assert (N : (click_count r0 + 1 >? INT4_MAX) = false).
      { destruct (click_count r0 + 1 >? INT4_MAX) eqn:G; [|reflexivity].
        assert (T : existsb (fun r => has_code c r && (click_count r + 1 >? INT4_MAX))
                      (rows t) = true).
        { apply existsb_exists. exists r0. split; [assumption|].
          now rewrite Hc, G. }
        congruence. }
      rewrite Z.gtb_ltb in N. apply Z.ltb_ge in N.
      unfold row_fits. simpl. repeat split; try tauto; lia. }
    destruct (map bump (filter (has_code c) (rows t))); split; assumption.
  - split; simpl; [|assumption].
    apply Forall_forall. intros r M. apply filter_In in M.
    rewrite Forall_forall in F. apply F. tauto.
  - now split.
Qed.

(** X5.  Every table that calls of the store lead to from the fresh table
    keeps the column types: each row has an id between 1 and 2147483647, an
    original URL of at most 2048 characters, a short code of at most 50
    characters and a click count in the [INTEGER] range, and the id sequence
    stays between 1 and 2147483648. *)
Theorem reachable_rows_fit (t : Table) :
  reachable t ->
  Forall row_fits (rows t) /\ 1 <= urls_id_seq t <= INT4_MAX + 1.
Proof.
  intros [ops ->].
  assert (G : forall t0, fits t0 -> fits (run ops t0)).
  { induction ops as [|op ops IH]; intros t0 F; [assumption|].
    rewrite run_cons. apply IH. now apply step_fits. }
  apply G. split; [constructor | unfold INT4_MAX; simpl; lia].
Qed.

Lemma run_fits (ops : list Op) (t : Table) : fits t -> fits (run ops t).
Proof.
  revert t; induction ops as [|op ops IH]; intros t F; [assumption|].
  rewrite run_cons. apply IH. now apply step_fits.
Qed.

Lemma NoDup_bounded_length (l : list Z) (n : Z) :
  NoDup l -> Forall (fun x => 1 <= x <= n) l -> Z.of_nat (List.length l) <= Z.max n 0.
Proof.
  intros D F.
  assert (I : incl l (map Z.of_nat (seq 1 (Z.to_nat n)))).
  { intros x M. rewrite Forall_forall in F. specialize (F x M).
    apply in_map_iff. exists (Z.to_nat x). split; [lia|]. apply in_seq. lia. }
  pose proof (NoDup_incl_length D I) as L.
  rewrite length_map, length_seq in L. lia.
Qed.

(** X22.  A table that calls of the store lead to from the fresh table has at
    most 2147483647 rows, as many as the [INTEGER] key has positive values.  So
    the count that [getAllUrls] reads with [parseInt] is a Number that holds it
    exactly, and the total of every answer is the number of rows. *)
Theorem reachable_count (t : Table) :
  reachable t ->
  Z.of_nat (List.length (rows t)) <= INT4_MAX
  /\ Js.to_number (Z.of_nat (List.length (rows t))) = Z.of_nat (List.length (rows t))
  /\ (forall scan limit offset urls total,
        Database.getAllUrls scan limit offset t = Return (urls, total) ->
        total = Z.of_nat (List.length (rows t))).
Proof.
  intros R.
  assert (B : Z.of_nat (List.length (rows t)) <= INT4_MAX).
  { pose proof (reachable_consistent t R) as (_ & D & _).
    destruct R as [ops ->].
    assert (F : fits (run ops initDatabase)).
    { apply run_fits. split; [constructor | unfold INT4_MAX; simpl; lia]. }
    destruct F as [F _].
    pose proof (NoDup_bounded_length (map row_id (rows (run ops initDatabase)))
                  INT4_MAX D) as L.
    rewrite length_map in L. unfold INT4_MAX in *.
    assert (G : Forall (fun x => 1 <= x <= 2147483647)
                  (map row_id (rows (run ops initDatabase)))).
    { apply Forall_forall. intros x M. apply in_map_iff in M.
      destruct M as [r [<- M]]. rewrite Forall_forall in F.
      destruct (F r M) as [I _]. unfold INT4_MAX in I. exact I. }
    specialize (L G). lia. }
  split; [exact B|]. split.
  - unfold Js.to_number.
    destruct (Z.leb_spec (Z.abs (Z.of_nat (List.length (rows t))))
                Js.MAX_SAFE_INTEGER) as [|A]; [reflexivity|].
    unfold Js.MAX_SAFE_INTEGER, INT4_MAX in *. lia.
  - intros scan limit offset urls total E. unfold Database.getAllUrls in E.
    destruct (bigint_param _); [discriminate|].
    destruct (bigint_param _); [discriminate|].
    destruct (_ <? 0); [discriminate|].
    destruct (_ <? 0); [discriminate|].
    inversion E. reflexivity.
Qed.

End ColumnFacts.

(** * Further properties of the queries *)

Section QueryFacts.

Import Types Database UrlController.









Lemma bigint_param_None (n : Z) :
  bigint_param n = None -> INT8_MIN <= n <= INT8_MAX.
Proof.
  unfold bigint_param, INT8_MIN, INT8_MAX.
  destruct ((n <=? - 10 ^ 21) || (10 ^ 21 <=? n)); [discriminate|].
  destruct (Z.ltb_spec n (-9223372036854775808)); [discriminate|].
  destruct (Z.ltb_spec 9223372036854775807 n); [discriminate | lia].
Qed.


Lemma firstn_add {A : Type} (a b : nat) (l : list A) :
  firstn (a + b) l = (firstn a l ++ firstn b (skipn a l))%list.
Proof.
  revert l; induction a as [|a IH]; intros l; [reflexivity|].
  destruct l as [|x l]; simpl; [now rewrite firstn_nil | now rewrite IH].
Qed.

(** The pages of [n] elements, from page 0 on, make up the list. *)
Lemma concat_pages {A : Type} (n k : nat) (l : list A) :
  List.concat (map (fun i => firstn n (skipn (i * n) l)) (seq 0 k)) = firstn (k * n) l.
Proof.
  induction k as [|k IH]; [reflexivity|].
  rewrite seq_S, map_app, concat_app, IH. simpl.
  rewrite app_nil_r, <- firstn_add. f_equal. lia.
Qed.

(** With pairwise distinct creation times there is one newest-first order. *)
Lemma newest_first_unique (l1 l2 : list Row) :
  NoDup (map created_at l1) -> Permutation l1 l2 ->
  StronglySorted newer_or_same l1 -> StronglySorted newer_or_same l2 -> l1 = l2.
Proof.
  revert l2; induction l1 as [|x l1 IH]; intros l2 D P S1 S2.
  - apply Permutation_nil in P. now subst.
  - destruct l2 as [|y l2].
    { apply Permutation_sym, Permutation_nil in P. discriminate P. }
    assert (E : x = y).
    { assert (Iy : In y (x :: l1)).
      { apply (Permutation_in _ (Permutation_sym P)). now left. }
      assert (Ix : In x (y :: l2)).
      { apply (Permutation_in _ P). now left. }
      destruct Iy as [Q|Iy]; [exact Q|].
      destruct Ix as [Q|Ix]; [now symmetry|].
      inversion S1 as [|? ? _ F1]; subst. inversion S2 as [|? ? _ F2]; subst.
      rewrite Forall_forall in F1, F2.
      pose proof (F1 y Iy) as A. pose proof (F2 x Ix) as B.
      unfold newer_or_same in A, B.
      apply (NoDup_map_injective created_at (x :: l1)); auto;
        [now left | now right | lia]. }
    subst y. f_equal. apply IH.
    + now inversion D.
    + now apply Permutation_cons_inv in P.
    + now inversion S1.
    + now inversion S2.
Qed.

Lemma scanned_order_unique (scan : Scan) (l : list Row) :
  NoDup (map created_at l) ->
  order_by_created_at_desc (scan_rows scan l) = order_by_created_at_desc l.
Proof.
  intros D. apply newest_first_unique.
  - apply (Permutation_NoDup (l := map created_at l)); [|exact D].
    apply Permutation_map, Permutation_sym, scanned_perm.
  - rewrite scanned_perm. symmetry. apply order_by_created_at_desc_perm.
  - apply order_by_created_at_desc_sorted.
  - apply order_by_created_at_desc_sorted.
Qed.

(** The records that [GET /api/urls] lists for a page. *)
Lemma getAllUrls_listed (scan : Scan) (page limit : Z) (protocol host : string)
  (t : Table) :
  1 <= page -> 1 <= limit -> page * limit <= Js.MAX_SAFE_INTEGER ->
  listed (UrlController.getAllUrls scan (Some page) (Some limit) protocol host t)
  = map rowToUrl
      (firstn (Z.to_nat limit)
         (skipn (Z.to_nat ((page - 1) * limit))
            (order_by_created_at_desc (scan_rows scan (rows t))))).
Proof.
  intros P L B.
  assert (B1 : 0 <= (page - 1) * limit <= page * limit) by nia.
  assert (B2 : limit <= page * limit) by nia.
  assert (B3 : page <= page * limit) by nia.
  unfold UrlController.getAllUrls, or_default, Js.sub, Js.mul.
  destruct (Z.eqb_spec page 0); [lia|].
  destruct (Z.eqb_spec limit 0); [lia|].
  rewrite (to_number_safe (page - 1)) by lia.
  rewrite (to_number_safe ((page - 1) * limit)) by lia.
  rewrite getAllUrls_in_range
    by (unfold Js.MAX_SAFE_INTEGER, INT8_MAX in *; lia).
  cbn [listed]. rewrite map_map. simpl. apply map_id.
Qed.

(** X9.  On a table whose records have pairwise distinct creation times, for
    a limit of at least 1 that with the number of records stays within
    [Number.MAX_SAFE_INTEGER], walking the pages of [GET /api/urls] from page 1
    to page [totalPages] lists every record of the table exactly once, newest
    first, in whatever order the query of each page reads the table: the lists
    of the pages, one after the other, are the whole table in newest-first
    order. *)
Theorem getAllUrls_pages_cover (scans : nat -> Scan) (limit : Z)
  (protocol host : string) (t : Table) :
  1 <= limit ->
  Z.of_nat (List.length (rows t)) + limit <= Js.MAX_SAFE_INTEGER ->
  NoDup (map created_at (rows t)) ->
  let totalPages := Math_ceil_div (Z.of_nat (List.length (rows t))) limit in
  List.concat (map (fun p => listed (UrlController.getAllUrls (scans p)
                                  (Some (Z.of_nat p)) (Some limit) protocol host t))
              (seq 1 (Z.to_nat totalPages)))
  = map rowToUrl (order_by_created_at_desc (rows t))
  /\ Permutation (order_by_created_at_desc (rows t)) (rows t)
  /\ StronglySorted newer_or_same (order_by_created_at_desc (rows t)).
Proof.
  intros L S D totalPages.
  split; [|split; [apply order_by_created_at_desc_perm
                  | apply order_by_created_at_desc_sorted]].
  set (sorted := order_by_created_at_desc (rows t)).
  pose proof (Math_ceil_div_bounds (Z.of_nat (List.length (rows t))) limit
                ltac:(lia) L) as B.
  fold totalPages in B.
  assert (E : map (fun p => listed (UrlController.getAllUrls (scans p)
                                      (Some (Z.of_nat p)) (Some limit) protocol host t))
                  (seq 1 (Z.to_nat totalPages))
              = map (fun i => map rowToUrl
                                (firstn (Z.to_nat limit)
                                   (skipn (i * Z.to_nat limit) sorted)))
                    (seq 0 (Z.to_nat totalPages))).
  { rewrite <- seq_shift, map_map. apply map_ext_in. intros i I.
    apply in_seq in I.
    rewrite getAllUrls_listed by nia.
    rewrite scanned_order_unique by exact D.
    do 3 f_equal. nia. }
  rewrite E.
  rewrite <- (map_map (fun i => firstn (Z.to_nat limit)
                                  (skipn (i * Z.to_nat limit) sorted))
                      (map rowToUrl)).
  rewrite <- concat_map, concat_pages. f_equal.
  apply firstn_all2.
  unfold sorted. rewrite (Permutation_length (order_by_created_at_desc_perm (rows t))).
  nia.
Qed.

Lemma getAllUrls_throws (scan : Scan) (limit offset : Z) (t : Table) :
  limit < 0 \/ offset < 0 \/ INT8_MAX < limit \/ INT8_MAX < offset ->
  exists e, Database.getAllUrls scan (Some limit) (Some offset) t = Throw e.
Proof.
  intros C. unfold Database.getAllUrls.
  destruct (bigint_param limit) as [e|] eqn:Bl; [eexists; reflexivity|].
  destruct (bigint_param offset) as [e|] eqn:Bo; [eexists; reflexivity|].
  apply bigint_param_None in Bl, Bo.
  destruct (Z.ltb_spec offset 0); [eexists; reflexivity|].
  destruct (Z.ltb_spec limit 0); [eexists; reflexivity | lia].
Qed.

Lemma getAllUrls_rejected (scan : Scan) (page limit : option Z)
  (protocol host : string) (t : Table) :
  or_default limit 50 < 0
  \/ Js.mul (Js.sub (or_default page 1) 1) (or_default limit 50) < 0
  \/ INT8_MAX < or_default limit 50
  \/ INT8_MAX < Js.mul (Js.sub (or_default page 1) 1) (or_default limit 50) ->
  UrlController.getAllUrls scan page limit protocol host t
  = json 500 (Failure "Internal server error").
Proof.
  intros C. unfold UrlController.getAllUrls.
  destruct (getAllUrls_throws scan _ _ t C) as [e ->]. reflexivity.
Qed.

(** X10.  The edges of [GET /api/urls]: a page that starts at or behind the
    last record (with [page * limit] within [Number.MAX_SAFE_INTEGER]) lists
    nothing and reports no next page; a negative limit, and a negative page
    with a positive limit, are answered with HTTP 500, and so are a limit and
    an offset beyond [bigint]; a missing, unreadable or zero page is page 1
    and a missing, unreadable or zero limit is the limit 50. *)
Theorem getAllUrls_edges (scan : Scan) (protocol host : string) (t : Table) :
  (forall page limit,
     1 <= page -> 1 <= limit -> page * limit <= Js.MAX_SAFE_INTEGER ->
     Z.of_nat (List.length (rows t)) <= (page - 1) * limit ->
     exists pagination message,
       UrlController.getAllUrls scan (Some page) (Some limit) protocol host t
       = json 200 (UrlList [] pagination message)
       /\ hasNext pagination = false)
  /\ (forall page limit,
        limit < 0 \/ (0 < limit /\ page < 0) ->
        UrlController.getAllUrls scan (Some page) (Some limit) protocol host t
        = json 500 (Failure "Internal server error"))
  /\ (forall page limit,
        page <> 0 -> limit <> 0 ->
        INT8_MAX < limit \/ INT8_MAX < Js.mul (Js.sub page 1) limit ->
        UrlController.getAllUrls scan (Some page) (Some limit) protocol host t
        = json 500 (Failure "Internal server error"))
  /\ (forall page limit,
        UrlController.getAllUrls scan page limit protocol host t
        = UrlController.getAllUrls scan
            (Some (match page with
                   | Some p => if p =? 0 then 1 else p
                   | None => 1
                   end))
            (Some (match limit with
                   | Some l => if l =? 0 then 50 else l
                   | None => 50
                   end))
            protocol host t).
Proof.
  split; [|split; [|split]].
  - intros page limit P L S B.
    assert (B1 : 0 <= (page - 1) * limit <= page * limit) by nia.
    assert (B2 : limit <= page * limit) by nia.
    assert (B3 : page <= page * limit) by nia.
    unfold UrlController.getAllUrls, or_default, Js.sub, Js.mul.
    destruct (Z.eqb_spec page 0); [lia|].
    destruct (Z.eqb_spec limit 0); [lia|].
    rewrite (to_number_safe (page - 1)) by lia.
    rewrite (to_number_safe ((page - 1) * limit)) by lia.
    rewrite (to_number_safe (page * limit)) by lia.
    rewrite getAllUrls_in_range
      by (unfold Js.MAX_SAFE_INTEGER, INT8_MAX in *; lia).
    rewrite skipn_all2
      by (rewrite (Permutation_length (scanned_perm scan (rows t))); lia).
    rewrite firstn_nil. simpl. eexists _, _. split; [reflexivity|].
    simpl. apply Z.ltb_ge. nia.
  - intros page limit C. apply getAllUrls_rejected. unfold or_default.
    destruct (Z.eqb_spec limit 0); [lia|].
    destruct C as [C|[C1 C2]]; [now left|]. right; left.
    destruct (Z.eqb_spec page 0); [lia|].
    unfold Js.mul, Js.sub. apply to_number_negative.
    pose proof (to_number_negative (page - 1) ltac:(lia)). nia.
  - intros page limit P L C. apply getAllUrls_rejected. unfold or_default.
    destruct (Z.eqb_spec limit 0); [lia|].
    destruct (Z.eqb_spec page 0); [lia|].
    right; right. exact C.
  - intros page limit. unfold UrlController.getAllUrls, or_default.
    destruct page as [p|], limit as [l|]; try reflexivity;
      repeat match goal with
             | |- context [?x =? 0] => destruct (Z.eqb_spec x 0); try lia
             end; reflexivity.
Qed.

End QueryFacts.

(** * Further properties of the handlers *)

Section HandlerFacts.

Context `{Platform}.

Import Types UrlValidator ShortCodeGenerator Database UrlController.

(** The two ways [persist] ends for a code that fits the column. *)
Lemma persist_cases (req : ShortenRequest) (now : Z) (u c : string) (t : Table) :
  Js.length c <= 50 ->
  (exists t', persist req now u c t = (t', internalServerError) /\ rows t' = rows t)
  \/ (exists row,
        persist req now u c t
        = ({| rows := rows t ++ [row]; urls_id_seq := urls_id_seq t + 1 |},
           json 201 (Created
             {| data_id := urls_id_seq t;
                data_originalUrl := original_url row;
                data_shortCode := c;
                data_shortUrl :=
                  baseUrl (req_protocol req) (req_host req) ++ "/" ++ c;
                data_createdAt := now |}))
        /\ getUrlByShortCode c t = None
        /\ row = {| row_id := urls_id_seq t;
                    original_url := original_url row;
                    short_code := c;
                    created_at := now;
                    click_count := 0;
                    updated_at := now |}
        /\ varchar 2048 u = Some (original_url row)).
Proof.
  intros L. unfold persist, createUrl. cbn [new_originalUrl new_shortCode new_clickCount].
  rewrite (varchar_fits 50 c L).
  destruct (urls_id_seq t >? INT4_MAX); [left; eexists; split; reflexivity|].
  destruct (varchar 2048 u) as [original|];
    [|left; eexists; split; reflexivity].
  change (negb (in_int4 0)) with false. cbv iota.
  destruct (existsb (fun r => row_id r =? urls_id_seq t) (rows t));
    [left; eexists; split; reflexivity|].
  destruct (existsb (has_code c) (rows t)) eqn:X;
    [left; eexists; split; reflexivity|].
  right. eexists. split; [reflexivity|]. split; [|split; reflexivity].
  apply getUrlByShortCode_None. intros M. apply in_map_iff in M.
  destruct M as (r & S & M).
  assert (T : existsb (has_code c) (rows t) = true).
  { apply existsb_exists. exists r. split; [assumption | now apply has_code_true]. }
  congruence.
Qed.

(** The branches of [createShortUrl], with the conditions they are taken on. *)
Lemma createShortUrl_branches (req : ShortenRequest) (now : Z) (rnd : Random)
  (t : Table) :
  (isValidUrl (body_url req) = false
   /\ exists e, createShortUrl req now rnd t = (t, json 400 (Failure e)))
  \/ (isValidUrl (body_url req) = true
      /\ Js.truthy (body_customCode req) = true
      /\ isValidCustomCode (body_customCode req) = false
      /\ createShortUrl req now rnd t = (t, invalidCustomCode))
  \/ (isValidUrl (body_url req) = true
      /\ Js.truthy (body_customCode req) = true
      /\ isValidCustomCode (body_customCode req) = true
      /\ getUrlByShortCode (Js.as_string (body_customCode req)) t <> None
      /\ createShortUrl req now rnd t = (t, customCodeExists))
  \/ (isValidUrl (body_url req) = true
      /\ Js.truthy (body_customCode req) = false
      /\ (forall k, (k < 10)%nat ->
                    getUrlByShortCode (nth_generated rnd k) t <> None)
      /\ createShortUrl req now rnd t = (t, unableToGenerate))
  \/ (isValidUrl (body_url req) = true
      /\ exists c,
           createShortUrl req now rnd t
           = persist req now (normalizeUrl (Js.as_string (body_url req))) c t
           /\ 3 <= Js.length c <= 20
           /\ getUrlByShortCode c t = None
           /\ (if Js.truthy (body_customCode req)
               then isValidCustomCode (body_customCode req) = true
                    /\ c = Js.as_string (body_customCode req)
               else exists j, (j < 10)%nat /\ c = nth_generated rnd j)).
Proof.
  unfold createShortUrl.
  destruct (isValidUrl (body_url req)) eqn:V.
  - rewrite (isValidUrl_truthy _ V). cbn [negb]. right.
    destruct (Js.truthy (body_customCode req)) eqn:C.
    + destruct (isValidCustomCode (body_customCode req)) eqn:I; cbn [negb];
        [|left; auto].
      right.
      destruct (getUrlByShortCode (Js.as_string (body_customCode req)) t) eqn:G.
      * left. repeat split; auto. congruence.
      * right; right. split; [reflexivity|]. eexists. split; [reflexivity|].
        destruct (isValidCustomCode_true _ I) as [code [Q L]].
        rewrite Q in *. simpl in *. auto.
    + right; right. change (Z.to_nat maxAttempts) with 10%nat.
      destruct (first_free t rnd 10) as [A|(j & L & A & N)].
      * left. rewrite (generateLoop_exhausted t 10 0 rnd); unfold maxAttempts;
          try lia; [auto|].
        intros k B. apply A. lia.
      * right. rewrite (generateLoop_found t j 10 0 rnd); unfold maxAttempts;
          try lia; auto.
        destruct (Z.geb_spec (0 + Z.of_nat j) 10); [exfalso; lia|].
        split; [reflexivity|]. eexists. split; [reflexivity|].
        rewrite nth_generated_length. split; [lia|]. split; [exact N|]. eauto.
  - left. split; [reflexivity|].
    destruct (Js.truthy (body_url req)); cbn [negb]; eexists; reflexivity.
Qed.

(** X11.  [POST /api/shorten] answers with 201, 400, 409 or 500 and with no
    other status.  Unless the answer is 201 the rows of the table are the rows
    there were; with 201 exactly one row has been added. *)
Theorem createShortUrl_outcomes (req : ShortenRequest) (now : Z) (rnd : Random)
  (t : Table) :
  In (status_of (snd (createShortUrl req now rnd t))) [201; 400; 409; 500]
  /\ (status_of (snd (createShortUrl req now rnd t)) <> 201 ->
      rows (fst (createShortUrl req now rnd t)) = rows t)
  /\ (status_of (snd (createShortUrl req now rnd t)) = 201 ->
      exists row,
        rows (fst (createShortUrl req now rnd t)) = (rows t ++ [row])%list).
Proof.
  destruct (createShortUrl_branches req now rnd t)
    as [(_ & e & E)|[(_ & _ & _ & E)|[(_ & _ & _ & _ & E)|[(_ & _ & _ & E)
       |(_ & c & E & L & _)]]]]; rewrite E;
    try (simpl; repeat split; try tauto; try discriminate; intros X; lia).
  destruct (persist_cases req now (normalizeUrl (Js.as_string (body_url req))) c t
              ltac:(lia)) as [(t' & P & R)|(row & P & _)]; rewrite P; simpl.
  - repeat split; try tauto. intros X; lia.
  - repeat split; try tauto; eauto.
Qed.

(** X12.  What a 201 answer of [POST /api/shorten] says is what the store
    holds: the short code of the answer was free before and now reads back as a
    record with the id, the original URL, the short code and the creation time
    of the answer and the click count 0; the creation time is the time of the
    request, the short URL is protocol, host and code, and a normalized URL of
    at most 2048 characters is stored as it is. *)
Theorem createShortUrl_created (req : ShortenRequest) (now : Z) (rnd : Random)
  (t t1 : Table) (data : ShortUrlData) :
  createShortUrl req now rnd t = (t1, json 201 (Created data)) ->
  getUrlByShortCode (data_shortCode data) t = None
  /\ getUrlByShortCode (data_shortCode data) t1
     = Some {| id := data_id data;
               originalUrl := data_originalUrl data;
               shortCode := data_shortCode data;
               createdAt := data_createdAt data;
               clickCount := 0 |}
  /\ data_createdAt data = now
  /\ data_shortUrl data
     = req_protocol req ++ "://" ++ req_host req ++ "/" ++ data_shortCode data
  /\ isValidUrl (body_url req) = true
  /\ (Js.length (normalizeUrl (Js.as_string (body_url req))) <= 2048 ->
      data_originalUrl data = normalizeUrl (Js.as_string (body_url req))).
Proof.
  intros E.
  destruct (createShortUrl_branches req now rnd t)
    as [(_ & e & Q)|[(_ & _ & _ & Q)|[(_ & _ & _ & _ & Q)|[(_ & _ & _ & Q)
       |(V & c & Q & L & G & _)]]]]; rewrite Q in E; try discriminate.
  destruct (persist_cases req now (normalizeUrl (Js.as_string (body_url req))) c t
              ltac:(lia)) as [(t' & P & R)|(row & P & _ & W & VU)];
    rewrite P in E; [discriminate|].
  injection E as <- <-. cbn [data_shortCode data_id data_originalUrl
                              data_createdAt data_shortUrl].
  split; [exact G|]. split; [|split; [reflexivity|split; [|split; [exact V|]]]].
  - rewrite (getUrlByShortCode_appended c (rows t) row);
      [rewrite W; reflexivity | rewrite W; reflexivity|].
    now apply getUrlByShortCode_None.
  - unfold baseUrl. generalize (req_protocol req) as p. clear.
    induction p as [|a p IH]; simpl; [reflexivity | f_equal; exact IH].
  - intros F. rewrite (varchar_fits 2048 _ F) in VU. congruence.
Qed.

(** X13.  [POST /api/shorten] answers 400 exactly when the URL fails
    validation, or a custom code is supplied and fails validation; it answers
    409 exactly when the URL is valid, a custom code is supplied and is valid,
    and a record with exactly that code exists. *)
Theorem createShortUrl_error_conditions (req : ShortenRequest) (now : Z)
  (rnd : Random) (t : Table) :
  (status_of (snd (createShortUrl req now rnd t)) = 400 <->
   isValidUrl (body_url req) = false
   \/ (Js.truthy (body_customCode req) = true
       /\ isValidCustomCode (body_customCode req) = false))
  /\ (status_of (snd (createShortUrl req now rnd t)) = 409 <->
      isValidUrl (body_url req) = true
      /\ Js.truthy (body_customCode req) = true
      /\ isValidCustomCode (body_customCode req) = true
      /\ getUrlByShortCode (Js.as_string (body_customCode req)) t <> None).
Proof.
  destruct (createShortUrl_branches req now rnd t)
    as [(V & e & E)|[(V & C & I & E)|[(V & C & I & G & E)|[(V & C & A & E)
       |(V & c & E & L & G & K)]]]]; rewrite E.
  - simpl. split; split; try tauto; try (intros X; lia).
    intros (V' & _). congruence.
  - simpl. split; split; try tauto; try (intros X; lia).
    intros (_ & _ & I' & _). congruence.
  - simpl. split; split; try tauto; try (intros X; lia).
    intros [V'|(_ & I')]; congruence.
  - simpl. split; split; try (intros X; lia).
    + intros [V'|(C' & _)]; congruence.
    + intros (_ & C' & _). congruence.
  - assert (S : status_of (snd (persist req now
                  (normalizeUrl (Js.as_string (body_url req))) c t)) = 201
                \/ status_of (snd (persist req now
                  (normalizeUrl (Js.as_string (body_url req))) c t)) = 500).
    { destruct (persist_cases req now (normalizeUrl (Js.as_string (body_url req)))
                  c t ltac:(lia)) as [(t' & P & R)|(row & P & _)]; rewrite P;
        simpl; auto. }
    split; split; try (intros X; lia).
    + intros [V'|(C' & I')]; [congruence|].
      rewrite C' in K. destruct K as [I _]. congruence.
    + intros (_ & C' & _ & G'). rewrite C' in K. destruct K as [_ ->].
      contradiction.
Qed.

(** X14.  The short code of a 201 answer: if a custom code was supplied, it is
    that custom code; if none was supplied, or an empty or otherwise falsy one,
    it is one of the first 10 generated codes, a string of exactly 6
    characters, each a letter, a digit, a hyphen or an underscore. *)
Theorem createShortUrl_code (req : ShortenRequest) (now : Z) (rnd : Random)
  (t t1 : Table) (data : ShortUrlData) :
  createShortUrl req now rnd t = (t1, json 201 (Created data)) ->
  (Js.truthy (body_customCode req) = true ->
   body_customCode req = Js.Str (data_shortCode data))
  /\ (Js.truthy (body_customCode req) = false ->
      (exists j, (j < 10)%nat /\ data_shortCode data = nth_generated rnd j)
      /\ Js.length (data_shortCode data) = 6
      /\ Forall (fun ch => url_safe ch = true)
           (list_ascii_of_string (data_shortCode data))).
Proof.
  intros E.
  destruct (createShortUrl_branches req now rnd t)
    as [(_ & e & Q)|[(_ & _ & _ & Q)|[(_ & _ & _ & _ & Q)|[(_ & _ & _ & Q)
       |(V & c & Q & L & G & K)]]]]; rewrite Q in E; try discriminate.
  destruct (persist_cases req now (normalizeUrl (Js.as_string (body_url req))) c t
              ltac:(lia)) as [(t' & P & R)|(row & P & _)];
    rewrite P in E; [discriminate|].
  injection E as <- <-. cbn [data_shortCode]. split; intros C; rewrite C in K.
  - destruct K as [I ->]. destruct (isValidCustomCode_true _ I) as [code [-> _]].
    reflexivity.
  - destruct K as (j & Lj & ->). split; [eauto|].
    split; [apply nth_generated_length|].
    unfold nth_generated, generate, nanoid. cbn [fst].
    eapply Forall_impl; [|apply nanoid_chars_alphabet]. simpl. tauto.
Qed.


(** X16.  A deleted code is free again: after [DELETE /api/urls/:shortCode],
    a shorten request with a valid URL and that code as a valid custom code is
    never answered with 409 or 400; it is answered with 201, or with 500 if the
    insert is rejected. *)
Theorem deleteUrl_frees_code (c : string) (req : ShortenRequest) (now : Z)
  (rnd : Random) (t : Table) :
  isValidUrl (body_url req) = true ->
  body_customCode req = Js.Str c ->
  isValidCustomCode (Js.Str c) = true ->
  In (status_of (snd (createShortUrl req now rnd
                        (fst (UrlController.deleteUrl c t)))))
     [201; 500].
Proof.
  intros V Q I.
  destruct (isValidCustomCode_true _ I) as [code [Qc L]]. injection Qc as <-.
  assert (N : (c =? "")%string = false) by (apply nonempty_eqb; lia).
  assert (G : getUrlByShortCode c (fst (UrlController.deleteUrl c t)) = None).
  { unfold UrlController.deleteUrl. rewrite N.
    destruct (deleteUrl_effect c t) as (_ & B & _).
    destruct (Database.deleteUrl c t) as [t' []]; exact B. }
  set (t' := fst (UrlController.deleteUrl c t)) in *.
  destruct (createShortUrl_branches req now rnd t')
    as [(V' & _)|[(_ & _ & I' & _)|[(_ & _ & _ & G' & _)|[(_ & C' & _)
       |(_ & c' & E & L' & _)]]]].
  - congruence.
  - rewrite Q in I'. congruence.
  - rewrite Q in G'. simpl in G'. contradiction.
  - rewrite Q in C'. simpl in C'. rewrite N in C'. discriminate.
  - rewrite E.
    destruct (persist_cases req now (normalizeUrl (Js.as_string (body_url req)))
                c' t' ltac:(lia)) as [(t2 & P & _)|(row & P & _)]; rewrite P;
      simpl; tauto.
Qed.

Lemma with_clicks_twice (u : Url) (a b : Z) :
  with_clicks (with_clicks u a) b = with_clicks u b.
Proof. reflexivity. Qed.

(** X17.  [n] redirects of an existing code, one after the other, raise its
    click count by exactly [n], as long as the count stays in the [INTEGER]
    range; the stats endpoint then shows the raised count, and every other code
    reads as before. *)
Theorem redirects_count (n : nat) (c protocol host : string) (t : Table) (u : Url) :
  c <> "" -> unique_short_codes t ->
  getUrlByShortCode c t = Some u ->
  clickCount u + Z.of_nat n <= INT4_MAX ->
  getUrlByShortCode c (redirects n c t)
  = Some (with_clicks u (clickCount u + Z.of_nat n))
  /\ getUrlStats c protocol host (redirects n c t)
     = json 200 (UrlStats
         {| url_record := with_clicks u (clickCount u + Z.of_nat n);
            shortUrl := baseUrl protocol host ++ "/" ++ shortCode u |})
  /\ (forall d, d <> c ->
        getUrlByShortCode d (redirects n c t) = getUrlByShortCode d t).
Proof.
  intros N.
  assert (Main : forall n t u,
            unique_short_codes t -> getUrlByShortCode c t = Some u ->
            clickCount u + Z.of_nat n <= INT4_MAX ->
            getUrlByShortCode c (redirects n c t)
            = Some (with_clicks u (clickCount u + Z.of_nat n))
            /\ (forall d, d <> c ->
                  getUrlByShortCode d (redirects n c t) = getUrlByShortCode d t)).
  { clear n t u. induction n as [|n IH]; intros t u D G L.
    - simpl. split; [|reflexivity]. rewrite G. f_equal.
      destruct u; unfold with_clicks; simpl; f_equal; lia.
    - destruct (redirect_present c t u N D G ltac:(lia)) as [R G'].
      assert (D' : unique_short_codes
                     {| rows := bumped c (rows t); urls_id_seq := urls_id_seq t |}).
      { unfold unique_short_codes. cbn [rows]. now rewrite bumped_codes. }
      cbn [redirects]. rewrite R. cbn [fst].
      destruct (IH _ _ D' G' ltac:(simpl; lia)) as [A B].
      split.
      + rewrite A, with_clicks_twice. f_equal. f_equal. simpl. lia.
      + intros d Nd. rewrite (B d Nd). unfold getUrlByShortCode. cbn [rows].
        now rewrite bumped_other_codes. }
  intros D G L. destruct (Main n t u D G L) as [A B].
  split; [exact A|]. split; [|exact B].
  apply string_eqb_false_iff in N. unfold getUrlStats. now rewrite N, A.
Qed.

End HandlerFacts.

(** * Further properties of the custom-code check *)

Section CaseFacts.

Import ShortCodeGenerator.

Lemma lower_char_alnum (c : ascii) :
  Js.is_lower c || Js.is_upper c || Js.is_digit c = true ->
  Js.is_lower (Js.lower_char c) || Js.is_upper (Js.lower_char c)
  || Js.is_digit (Js.lower_char c) = true.
Proof. destruct c as [[] [] [] [] [] [] [] []]; intros E; exact E || reflexivity. Qed.

Lemma lower_char_idempotent (c : ascii) :
  Js.lower_char (Js.lower_char c) = Js.lower_char c.
Proof. destruct c as [[] [] [] [] [] [] [] []]; reflexivity. Qed.

Lemma toLowerCase_idempotent (s : string) :
  Js.toLowerCase (Js.toLowerCase s) = Js.toLowerCase s.
Proof.
  induction s as [|c s IH]; simpl; [reflexivity|].
  now rewrite lower_char_idempotent, IH.
Qed.

Lemma toLowerCase_length (s : string) : Js.length (Js.toLowerCase s) = Js.length s.
Proof.
  unfold Js.length. f_equal. induction s as [|c s IH]; simpl; [|rewrite IH];
    reflexivity.
Qed.

Lemma toLowerCase_pattern (s : string) :
  allowedPattern_test s = true -> allowedPattern_test (Js.toLowerCase s) = true.
Proof.
  unfold allowedPattern_test. rewrite !andb_true_iff. intros [N A]. split.
  - destruct s; [discriminate N | reflexivity].
  - clear N. induction s as [|c s IH]; simpl in *; [reflexivity|].
    apply andb_true_iff in A. destruct A as [A1 A2].
    now rewrite lower_char_alnum, IH.
Qed.

Lemma isValidCustomCode_lower (code : string) :
  allowedPattern_test code = true ->
  isValidCustomCode (Js.Str (Js.toLowerCase code)) = isValidCustomCode (Js.Str code).
Proof.
  intros A. rewrite !isValidCustomCode_string.
  now rewrite toLowerCase_length, (toLowerCase_pattern code A), A,
    toLowerCase_idempotent.
Qed.

(** X18.  Among the codes made of ASCII letters and digits, whether a custom
    code is valid depends only on its lower-case form: two such codes with
    the same lower-case form are both valid or both invalid, and such a code
    is valid exactly when its lower-case form is. *)
Theorem isValidCustomCode_case (a b : string) :
  allowedPattern_test a = true -> allowedPattern_test b = true ->
  Js.toLowerCase a = Js.toLowerCase b ->
  isValidCustomCode (Js.Str a) = isValidCustomCode (Js.Str b)
  /\ isValidCustomCode (Js.Str (Js.toLowerCase a)) = isValidCustomCode (Js.Str a).
Proof.
  intros A B E. split; [|now apply isValidCustomCode_lower].
  rewrite <- (isValidCustomCode_lower a A), <- (isValidCustomCode_lower b B).
  now rewrite E.
Qed.

End CaseFacts.

(** * The rate limiter *)

Section RateLimiterFacts.

Import RateLimiter.

Lemma set_same (store : RateLimitStore) (k : string) (v : ClientData) :
  set store k v k = Some v.
Proof. unfold set. now rewrite String.eqb_refl. Qed.

Lemma set_other (store : RateLimitStore) (k k' : string) (v : ClientData) :
  k' <> k -> set store k v k' = store k'.
Proof. intros N. unfold set. apply string_eqb_false_iff in N. now rewrite N. Qed.


(** The requests of a client in a running window. *)
Lemma serve_running (self : SimpleRateLimiter) (c : string) (rt : Z)
  (times : list Z) :
  Forall (fun now => now <= rt) times ->
  forall (store : RateLimitStore) (cnt : Z),
    store c = Some {| count := cnt; resetTime := rt |} ->
    passed (snd (serve self c times store))
    = Z.max 0 (Z.min (Z.of_nat (List.length times)) (maxRequests self - cnt)).
Proof.
  unfold passed.
  induction 1 as [|now times L F IH]; intros store cnt S; [simpl; lia|].
  cbn [serve]. unfold middleware. rewrite S. cbn [resetTime count].
  destruct (Z.gtb_spec now rt); [lia|].
  destruct (Z.geb_spec cnt (maxRequests self)) as [M|M].
  - specialize (IH store cnt S).
    destruct (serve self c times store) as [s2 outs]. cbn [snd filter is_next] in *.
    rewrite IH. cbn [List.length]. lia.
  - specialize (IH (set store c {| count := cnt + 1; resetTime := rt |}) (cnt + 1)
                  (set_same _ _ _)).
    destruct (serve self c times _) as [s2 outs]. cbn [snd filter is_next] in *.
    cbn [List.length]. rewrite Nat2Z.inj_succ, IH. cbn [List.length].
    rewrite Nat2Z.inj_succ. lia.
Qed.

(** X20.  Within one window a client gets through at most [maxRequests] times:
    if a client without an entry sends a request at the time [t0] and further
    requests up to the time [t0 + windowMs], the number of requests that are
    let through is the number of requests or [maxRequests], whichever is
    smaller; the first request of a window always gets through, also when
    [maxRequests] is below 1. *)
Theorem serve_window (self : SimpleRateLimiter) (c : string) (t0 : Z)
  (times : list Z) (store : RateLimitStore) :
  store c = None ->
  Forall (fun now => now <= t0 + windowMs self) times ->
  passed (snd (serve self c (t0 :: times) store))
  = Z.min (1 + Z.of_nat (List.length times)) (Z.max 1 (maxRequests self)).
Proof.
  intros S F. cbn [serve]. unfold middleware. rewrite S.
  pose proof (serve_running self c (t0 + windowMs self) times F
                (set store c {| count := 1; resetTime := t0 + windowMs self |}) 1
                (set_same _ _ _)) as R.
  destruct (serve self c times _) as [s2 outs]. unfold passed in *.
  cbn [snd filter is_next List.length] in *. rewrite Nat2Z.inj_succ, R. lia.
Qed.

Lemma middleware_other (self : SimpleRateLimiter) (a b : string) (now : Z)
  (store : RateLimitStore) :
  b <> a -> fst (middleware self a now store) b = store b.
Proof.
  intros N. unfold middleware. destruct (store a) as [d|]; simpl;
    [|now apply set_other].
  destruct (now >? resetTime d); simpl; [now apply set_other|].
  destruct (count d >=? maxRequests self); simpl; [reflexivity | now apply set_other].
Qed.

(** X21.  Clients do not affect each other: the requests of one client leave
    the entry of every other client as it is, so they change neither whether
    the next request of another client gets through nor its [retryAfter]. *)
Theorem clients_independent (self : SimpleRateLimiter) (a b : string)
  (times : list Z) (store : RateLimitStore) :
  b <> a ->
  fst (serve self a times store) b = store b
  /\ (forall now,
        snd (middleware self b now (fst (serve self a times store)))
        = snd (middleware self b now store)).
Proof.
  intros N.
  assert (E : forall times store, fst (serve self a times store) b = store b).
  { clear times store. induction times as [|now times IH]; intros store;
      [reflexivity|].
    cbn [serve]. destruct (middleware self a now store) as [s1 o] eqn:M.
    specialize (IH s1). destruct (serve self a times s1) as [s2 outs].
    cbn [fst] in *. rewrite IH.
    change s1 with (fst (s1, o)). rewrite <- M. now apply middleware_other. }
  split; [apply E|].
  intros now. unfold middleware. rewrite E. destruct (store b) as [d|]; simpl;
    [|reflexivity].
  destruct (now >? resetTime d); [reflexivity|].
  destruct (count d >=? maxRequests self); reflexivity.
Qed.

End RateLimiterFacts.

(** * The further statements at concrete inputs *)

Section MoreInstances.

Import Types UrlValidator ShortCodeGenerator Database UrlController RateLimiter.
Import SimplePlatform Examples.


Lemma createUrl_lookup_witness :
  createUrl 1000 freshLink initDatabase
  = (freshTable,
     Return {| id := 1; originalUrl := "https://example.com";
               shortCode := "abc123"; createdAt := 1000; clickCount := 0 |})
  /\ getUrlByShortCode "abc123" freshTable
     = Some {| id := 1; originalUrl := "https://example.com";
               shortCode := "abc123"; createdAt := 1000; clickCount := 0 |}
  /\ getUrlById 1 freshTable
     = Some {| id := 1; originalUrl := "https://example.com";
               shortCode := "abc123"; createdAt := 1000; clickCount := 0 |}.
Proof.
  assert (E : createUrl 1000 freshLink initDatabase
              = (freshTable,
                 Return {| id := 1; originalUrl := "https://example.com";
                           shortCode := "abc123"; createdAt := 1000;
                           clickCount := 0 |})) by reflexivity.
  destruct (createUrl_lookup _ _ _ _ _ E) as (A & B & _).
  split; [exact E|]. split; [exact A | exact B].
Defined.

Lemma createUrl_rejected_witness :
  Js.length (new_shortCode busyLink) <= 50
  /\ (exists e, snd (createUrl 2000 busyLink freshTable) = Throw e)
  /\ rows (fst (createUrl 2000 busyLink freshTable)) = rows freshTable.
Proof.
  assert (L : Js.length (new_shortCode busyLink) <= 50)
    by (unfold Js.length; simpl; lia).
  destruct (createUrl_rejected 2000 busyLink freshTable) as (R & X).
  destruct (X _ L eq_refl) as ((e & T) & _).
  split; [exact L|]. split; [exists e; exact T | exact (R e T)].
Defined.

Lemma ids_never_reused_witness :
  reachable freshTable
  /\ row_id {| row_id := 1; original_url := "https://example.com";
               short_code := "abc123"; created_at := 1000;
               click_count := 0; updated_at := 1000 |}
     < row_id {| row_id := 2; original_url := "https://example.com";
                 short_code := "abc123"; created_at := 3000;
                 click_count := 0; updated_at := 3000 |}.
Proof.
  assert (R : reachable freshTable) by (eexists; reflexivity).
  split; [exact R|].
  apply (ids_never_reused freshTable [OpDeleteUrl "abc123"] 3000 freshLink _ _ R).
  - left. reflexivity.
  - left. reflexivity.
  - intros [].
Defined.

Lemma reachable_rows_fit_witness :
  reachable busyTable /\ Forall row_fits (rows busyTable).
Proof.
  assert (R : reachable busyTable) by (eexists; reflexivity).
  split; [exact R | exact (proj1 (reachable_rows_fit busyTable R))].
Defined.

Lemma reachable_count_witness :
  reachable (takenTable 7)
  /\ Z.of_nat (List.length (rows (takenTable 7))) <= INT4_MAX.
Proof.
  assert (R : reachable (takenTable 7)) by (eexists; reflexivity).
  split; [exact R | exact (proj1 (reachable_count (takenTable 7) R))].
Defined.

Lemma lookups_agree_witness :
  consistent freshTable
  /\ getUrlById 1 freshTable = getUrlByShortCode "abc123" freshTable.
Proof.
  assert (C : consistent freshTable).
  { unfold consistent, unique_short_codes. simpl. split; [|split].
    - constructor; [intros [] | constructor].
    - constructor; [intros [] | constructor].
    - constructor; [reflexivity | constructor]. }
  split; [exact C|].
  destruct (lookups_agree freshTable
              {| id := 1; originalUrl := "https://example.com";
                 shortCode := "abc123"; createdAt := 1000; clickCount := 0 |} C)
    as (A & _).
  exact (A "abc123" eq_refl).
Defined.


Lemma getAllUrls_pages_cover_witness :
  1 <= 3
  /\ Z.of_nat (List.length (rows (takenTable 7))) + 3 <= Js.MAX_SAFE_INTEGER
  /\ NoDup (map created_at (rows (takenTable 7)))
  /\ List.concat
       (map (fun p => listed (UrlController.getAllUrls
                                (if Nat.even p then scan_as_stored else scan_backwards)
                                (Some (Z.of_nat p)) (Some 3)
                                "http" "sho.rt" (takenTable 7)))
            [1; 2; 3]%nat)
     = map rowToUrl (order_by_created_at_desc (rows (takenTable 7))).
Proof.
  assert (S : Z.of_nat (List.length (rows (takenTable 7))) + 3
              <= Js.MAX_SAFE_INTEGER) by (vm_compute; discriminate).
  assert (D : NoDup (map created_at (rows (takenTable 7)))).
  { vm_compute. repeat (constructor; [cbn; lia|]). constructor. }
  split; [lia|]. split; [exact S|]. split; [exact D|].
  exact (proj1 (getAllUrls_pages_cover
                  (fun p => if Nat.even p then scan_as_stored else scan_backwards)
                  3 "http" "sho.rt" (takenTable 7) ltac:(lia) S D)).
Defined.

Lemma getAllUrls_edges_witness :
  listed (UrlController.getAllUrls scan_as_stored (Some 4) (Some 3) "http" "sho.rt"
            (takenTable 7))
  = []
  /\ UrlController.getAllUrls scan_as_stored (Some (-2)) (Some 3) "http" "sho.rt"
       (takenTable 7)
     = json 500 (Failure "Internal server error")
  /\ UrlController.getAllUrls scan_as_stored (Some 1) (Some 9223372036854775808)
       "http" "sho.rt" (takenTable 7)
     = json 500 (Failure "Internal server error").
Proof.
  destruct (getAllUrls_edges scan_as_stored "http" "sho.rt" (takenTable 7))
    as (A & B & C & _).
  split; [|split].
  - destruct (A 4 3 ltac:(lia) ltac:(lia) ltac:(vm_compute; discriminate)
                ltac:(vm_compute; discriminate))
      as (p & m & E & _).
    rewrite E. reflexivity.
  - apply B. right. lia.
  - apply C; [lia | lia | left; unfold INT8_MAX; lia].
Defined.

Lemma createShortUrl_created_witness :
  exists t1 data,
    createShortUrl githubRequest 1000 countingSource initDatabase
    = (t1, json 201 (Created data))
    /\ data_shortUrl data = "http://sho.rt/github"
    /\ getUrlByShortCode "github" t1
       = Some {| id := 1; originalUrl := "https://github.com";
                 shortCode := "github"; createdAt := 1000; clickCount := 0 |}.
Proof.
  eexists _, _. split; [reflexivity|].
  destruct (createShortUrl_created (H := platform) githubRequest 1000 countingSource
              initDatabase _ _ eq_refl) as (_ & G & _ & U & _).
  split; [exact U | exact G].
Defined.

Lemma createShortUrl_code_witness :
  exists t1 data,
    createShortUrl plainRequest 1000 countingSource initDatabase
    = (t1, json 201 (Created data))
    /\ Js.truthy (body_customCode plainRequest) = false
    /\ Js.length (data_shortCode data) = 6.
Proof.
  eexists _, _. split; [reflexivity|]. split; [reflexivity|].
  destruct (createShortUrl_code (H := platform) plainRequest 1000 countingSource
              initDatabase _ _ eq_refl) as (_ & G).
  exact (proj1 (proj2 (G eq_refl))).
Defined.


Lemma deleteUrl_frees_code_witness :
  isValidUrl (body_url githubRequest) = true
  /\ isValidCustomCode (Js.Str "github") = true
  /\ In (status_of
           (snd (createShortUrl githubRequest 2000 countingSource
                   (fst (UrlController.deleteUrl "github"
                           (fst (createShortUrl githubRequest 1000 countingSource
                                   initDatabase)))))))
        [201; 500].
Proof.
  split; [reflexivity|]. split; [reflexivity|].
  apply (deleteUrl_frees_code (H := platform) "github" githubRequest 2000
           countingSource); reflexivity.
Defined.

Lemma redirects_count_witness :
  unique_short_codes freshTable
  /\ getUrlByShortCode "abc123" (redirects 3 "abc123" freshTable)
     = Some {| id := 1; originalUrl := "https://example.com";
               shortCode := "abc123"; createdAt := 1000; clickCount := 3 |}.
Proof.
  assert (D : unique_short_codes freshTable).
  { unfold unique_short_codes. simpl. constructor; [intros [] | constructor]. }
  split; [exact D|].
  destruct (redirects_count 3 "abc123" "http" "sho.rt" freshTable
              {| id := 1; originalUrl := "https://example.com";
                 shortCode := "abc123"; createdAt := 1000; clickCount := 0 |}
              ltac:(discriminate) D eq_refl
              ltac:(simpl; unfold INT4_MAX; lia)) as (G & _).
  exact G.
Defined.

Lemma isValidCustomCode_case_witness :
  allowedPattern_test "GitHub" = true /\ allowedPattern_test "github" = true
  /\ Js.toLowerCase "GitHub" = Js.toLowerCase "github"
  /\ isValidCustomCode (Js.Str "GitHub") = isValidCustomCode (Js.Str "github").
Proof.
  split; [reflexivity|]. split; [reflexivity|]. split; [reflexivity|].
  exact (proj1 (isValidCustomCode_case "GitHub" "github" eq_refl eq_refl eq_refl)).
Defined.


Lemma serve_window_witness :
  empty "10.1.2.3" = None
  /\ passed (snd (serve rateLimiter "10.1.2.3" (0 :: repeat 1 149) empty)) = 100.
Proof.
  split; [reflexivity|].
  rewrite (serve_window rateLimiter "10.1.2.3" 0 (repeat 1 149) empty eq_refl).
  - reflexivity.
  - apply Forall_forall. intros x I. apply repeat_spec in I. subst x.
    simpl. lia.
Defined.

Lemma clients_independent_witness :
  "10.1.2.4" <> "10.1.2.3"
  /\ fst (serve rateLimiter "10.1.2.3" [0; 1; 2] empty) "10.1.2.4" = None.
Proof.
  assert (N : "10.1.2.4" <> "10.1.2.3") by discriminate.
  split; [exact N|].
  exact (proj1 (clients_independent rateLimiter "10.1.2.3" "10.1.2.4" [0; 1; 2]
                  empty N)).
Defined.

End MoreInstances.
